(** * The chat route of the library assistant

    A shallow embedding of [web/src/app/api/chat/route.ts] (the [POST]
    handler of [/api/chat]) together with the retrieval engine and the
    translation bridge it calls.  The handler is embedded from the source;
    [@/lib/qa] and [@/lib/translation] are not part of the sources, so the
    handler takes them as collaborators, and a model of them that follows the
    written specification is given separately (module [Engine]). *)

From Stdlib Require Import List NArith ZArith QArith Bool Lia String Ascii.
From Stdlib Require Import Permutation Sorted DecimalString Lqa FinFun.
Import ListNotations.

Set Implicit Arguments.
Set Warnings "-register-all".

(** ** JavaScript values *)

Module Js.

(** A JavaScript string is a sequence of UTF-16 code units. *)
Definition code_unit := N.
Definition jsstring := list code_unit.

(** ASCII literals of the source text. *)
Definition lit (s : string) : jsstring :=
  map N_of_ascii (list_ascii_of_string s).

Definition str_eqb (a b : jsstring) : bool :=
  if list_eq_dec N.eq_dec a b then true else false.

(** [Boolean(s)] / [!s] on a string: only the empty string is falsy. *)
Definition truthy (s : jsstring) : bool :=
  match s with [] => false | _ :: _ => true end.

(** [WhiteSpace] and [LineTerminator] code points, the characters removed by
    [String.prototype.trim]. *)
Definition isWhiteSpace (c : code_unit) : bool :=
  ((9 <=? c) && (c <=? 13) || (c =? 32) || (c =? 160) || (c =? 5760)
   || (8192 <=? c) && (c <=? 8202) || (c =? 8232) || (c =? 8233)
   || (c =? 8239) || (c =? 8287) || (c =? 12288) || (c =? 65279))%N.

Fixpoint trimStart (s : jsstring) : jsstring :=
  match s with
  | c :: s' => if isWhiteSpace c then trimStart s' else s
  | [] => []
  end.

Definition trimEnd (s : jsstring) : jsstring := rev (trimStart (rev s)).

Definition trim (s : jsstring) : jsstring := trimEnd (trimStart s).

(** No white space at the start. *)
Definition trimmedStart (s : jsstring) : Prop :=
  match s with
  | [] => True
  | c :: _ => isWhiteSpace c = false
  end.

(** [Array.prototype.join] on an array of strings. *)
Fixpoint join (sep : jsstring) (parts : list jsstring) : jsstring :=
  match parts with
  | [] => []
  | [p] => p
  | p :: rest => p ++ sep ++ join sep rest
  end.

(** What a JavaScript computation can do besides returning: throw (for an
    awaited promise, reject), or never settle. *)
Inductive thrown : Type :=
| TypeError
| Failure (reason : jsstring).

Inductive completion (A : Type) : Type :=
| Value (a : A)
| Throw (e : thrown)
| Pending.
Arguments Throw {A} e.
Arguments Pending {A}.

Section Json.

(** JSON numbers are IEEE doubles; the handler only ever prints them, so
    they are kept abstract together with [Number::toString]. *)
Variable number : Type.
Variable numberToString : number -> jsstring.

(** The result of [request.json()]. An object is the list of its own
    properties, a key being looked up at its first entry. *)
Inductive json : Type :=
| JNull
| JBool (b : bool)
| JNum (n : number)
| JStr (s : jsstring)
| JArr (items : list json)
| JObj (fields : list (jsstring * json)).

Fixpoint own (key : jsstring) (fields : list (jsstring * json)) : option json :=
  match fields with
  | [] => None
  | (k, v) :: rest => if str_eqb k key then Some v else own key rest
  end.

(** [v?.key] for a key that no prototype defines ([message], [scope],
    [bookId], [targetLanguage]): [None] is [undefined]. *)
Definition get (v : json) (key : jsstring) : option json :=
  match v with
  | JObj fields => own key fields
  | _ => None
  end.

(** [x ?? d] *)
Definition nullish (x : option json) (d : json) : json :=
  match x with
  | None | Some JNull => d
  | Some v => v
  end.

(** [typeof x === 'string' ? x : undefined] *)
Definition asString (x : option json) : option jsstring :=
  match x with
  | Some (JStr s) => Some s
  | _ => None
  end.

Fixpoint sequence (A : Type) (l : list (completion A)) : completion (list A) :=
  match l with
  | [] => Value []
  | Value a :: rest =>
      match sequence rest with
      | Value r => Value (a :: r)
      | Throw e => Throw e
      | Pending => Pending
      end
  | Throw e :: _ => Throw e
  | Pending :: _ => Pending
  end.

(** [String(v)].  An array prints its elements joined by commas, [null]
    elements as the empty string.  A parsed object has no callable own
    property, so one with an own [toString] has no usable conversion and
    [String] throws a [TypeError]; any other prints as
    [[object Object]]. *)
Fixpoint String (v : json) : completion jsstring :=
  match v with
  | JNull => Value (lit "null")
  | JBool true => Value (lit "true")
  | JBool false => Value (lit "false")
  | JNum n => Value (numberToString n)
  | JStr s => Value s
  | JArr items =>
      match sequence (map (fun e => match e with
                                    | JNull => Value []
                                    | _ => String e
                                    end) items) with
      | Value parts => Value (join (lit ",") parts)
      | Throw e => Throw e
      | Pending => Pending
      end
  | JObj fields =>
      match own (lit "toString") fields with
      | Some _ => Throw TypeError
      | None => Value (lit "[object Object]")
      end
  end.

End Json.

Arguments JNull {number}.
Arguments JBool {number} b.
Arguments JStr {number} s.

End Js.

Import Js.

(** ** The interfaces of the two libraries the route imports *)

(** [@/lib/qa]: what [findAnswer] takes and returns, as the route uses it. *)
Module Qa.

Inductive Scope : Type := book_scope | library_scope.

Record FindOptions : Type := {
  scope : Scope;
  bookId : option jsstring
}.

Record Book : Type := {
  id : jsstring;
  title : jsstring
}.

Record Answer : Type := {
  answer : jsstring;
  book : Book;
  section : jsstring;
  supporting : list jsstring
}.

End Qa.

(** [@/lib/translation]: the result of [translateToEnglish]. *)
Module Translation.

Record ToEnglish : Type := {
  text : jsstring;
  detected : jsstring
}.

End Translation.

(** ** The route handler *)

Module ChatRoute.

Import Qa Translation.

(** The three functions the route imports.  Each is called at most once per
    request, so a function of the arguments describes any behaviour a
    single request can observe, including a rejected or a never-settling
    promise. *)
Record Collaborators : Type := {
  translateToEnglish : jsstring -> completion ToEnglish;
  findAnswer : jsstring -> FindOptions -> completion (option Answer);
  translateFromEnglish : jsstring -> jsstring -> completion jsstring
}.

(** The calls a request makes, in order. *)
Inductive call : Type :=
| call_translateToEnglish (message : jsstring)
| call_findAnswer (question : jsstring) (options : FindOptions)
| call_translateFromEnglish (text : jsstring) (targetLanguage : jsstring).

(** A handler computation: given the collaborators, the calls made and how
    the computation completes.  The handler has no [try]: the first call
    that does not return ends it. *)
Definition Handler (A : Type) : Type :=
  Collaborators -> list call * completion A.

Definition ret (A : Type) (a : A) : Handler A := fun _ => ([], Value a).

Definition bind (A B : Type) (m : Handler A) (k : A -> Handler B) : Handler B :=
  fun env =>
    match m env with
    | (calls, Value a) => let (calls', c) := k a env in (calls ++ calls', c)
    | (calls, Throw e) => (calls, Throw e)
    | (calls, Pending) => (calls, Pending)
    end.

Definition lift (A : Type) (c : completion A) : Handler A := fun _ => ([], c).

Definition invoke (A : Type) (what : call) (f : Collaborators -> completion A)
  : Handler A :=
  fun env => ([what], f env).

Declare Scope handler_scope.
Delimit Scope handler_scope with handler.
Notation "x <- m ;; k" := (bind m (fun x => k))
  (at level 61, m at next level, right associativity) : handler_scope.

Record Source : Type := {
  source_id : jsstring;
  source_title : jsstring;
  source_section : jsstring
}.

Record ChatPayload : Type := {
  answer : jsstring;
  baseAnswer : jsstring;
  targetLanguage : jsstring;
  detectedLanguage : jsstring;
  found : bool;
  source : option Source
}.

Inductive payload : Type :=
| ErrorPayload (error : jsstring)
| Chat (p : ChatPayload).

Record Response : Type := {
  status : N;
  data : payload
}.

(** [NextResponse.json(data)] and [NextResponse.json(data, { status })] *)
Definition json_response (content : payload) (init : option N) : Response :=
  {| status := match init with Some s => s | None => 200%N end;
     data := content |}.

Definition fallbackAnswer : jsstring :=
  lit "I could not find a precise passage in the library. Try refining your question with more context, such as a topic or chapter.".

(** U+2014, the dash of the source line. *)
Definition em_dash : code_unit := 8212%N.

(** The array literal of lines 33-39, [.filter(Boolean)], [.join('\n\n')]. *)
Definition composed (a : Answer) : jsstring :=
  join [10; 10]%N
    (filter truthy
       [ Qa.answer a;
         lit "Source: " ++ title (book a) ++ [32; em_dash; 32]%N ++ section a;
         if (0 <? List.length (supporting a))%nat
         then lit "Related context: " ++ join (lit " / ") (supporting a)
         else [] ]).

Section Request.

Variable number : Type.
Variable numberToString : number -> jsstring.

(** Lines 9-13: the four fields read from the body. *)
Definition message_of (body : json number) : completion jsstring :=
  match String numberToString (nullish (get body (lit "message")) (JStr [])) with
  | Value s => Value (trim s)
  | Throw e => Throw e
  | Pending => Pending
  end.

Definition scope_of (body : json number) : Scope :=
  match get body (lit "scope") with
  | Some (JStr s) => if str_eqb s (lit "book") then book_scope else library_scope
  | _ => library_scope
  end.

Definition bookId_of (body : json number) : option jsstring :=
  asString (get body (lit "bookId")).

Definition targetLanguage_of (body : json number) : jsstring :=
  match asString (get body (lit "targetLanguage")) with
  | Some l => l
  | None => lit "en"
  end.

(** The options object of lines 24-27. *)
Definition options_of (body : json number) : FindOptions :=
  {| Qa.scope := scope_of body; Qa.bookId := bookId_of body |}.

Local Open Scope handler_scope.

Definition POST (request_json : json number) : Handler Response :=
  let body := request_json in
  message <- lift (message_of body) ;;
  let scope := scope_of body in
  let bookId := bookId_of body in
  let targetLanguage := targetLanguage_of body in
  if negb (truthy message) then
    ret (json_response (ErrorPayload (lit "Message must not be empty."))
           (Some 400%N))
  else
    translated <- invoke (call_translateToEnglish message)
                    (fun env => translateToEnglish env message) ;;
    let englishQuestion := text translated in
    let detected := detected translated in
    let question := if truthy englishQuestion then englishQuestion else message in
    let options := {| Qa.scope := scope; Qa.bookId := bookId |} in
    answer <- invoke (call_findAnswer question options)
                (fun env => findAnswer env question options) ;;
    let baseAnswer :=
      match answer with
      | Some a => composed a
      | None => fallbackAnswer
      end in
    localizedAnswer <- invoke (call_translateFromEnglish baseAnswer targetLanguage)
                         (fun env => translateFromEnglish env baseAnswer targetLanguage) ;;
    ret (json_response
           (Chat {| answer := localizedAnswer;
                    baseAnswer := baseAnswer;
                    targetLanguage := targetLanguage;
                    detectedLanguage := detected;
                    found := match answer with Some _ => true | None => false end;
                    source := match answer with
                              | Some a => Some {| source_id := id (book a);
                                                  source_title := title (book a);
                                                  source_section := section a |}
                              | None => None
                              end |})
           None).

End Request.

End ChatRoute.

(** ** The retrieval engine and the translator, from the specification

    Modelled from the spec: neither [@/lib/qa] nor [@/lib/translation] is in
    the sources.  This module follows the written contract of the tokenizer,
    the index builder, the scoring engine, the answer composer and the
    translator. *)

Module Engine.

Definition token := jsstring.
Definition position := (nat * nat * nat)%type.

(** Modelled from the spec: the data model of the corpus store (section 3),
    whose records [@/data/books] are not in the sources. *)
Record BookSection : Type := {
  heading : jsstring;
  paragraphs : list jsstring
}.

Record Book : Type := {
  id : jsstring;
  title : jsstring;
  author : jsstring;
  year : N;
  language : jsstring;
  tags : list jsstring;
  description : jsstring;
  sections : list BookSection
}.

(** Modelled from the spec: one indexed paragraph, its place in the corpus
    (book insertion order, section order, paragraph order), the book and
    section it belongs to, its verbatim text and its normalized tokens.  The
    index is kept paragraph by paragraph; the occurrences and frequencies of
    a token are read off the token lists. *)
Record IndexedParagraph : Type := {
  place : position;
  book : Book;
  section : jsstring;
  text : jsstring;
  tokens : list token
}.

Definition Index := list IndexedParagraph.

(** Modelled from the spec: a transient candidate of one query. *)
Record AnswerCandidate : Type := {
  paragraph : IndexedParagraph;
  relevance : Q
}.

Definition mem (t : token) (ts : list token) : bool := existsb (str_eqb t) ts.

(** Modelled from the spec: the boundaries and the case folding of the
    tokenizer (section 4.1), for text that is English after translation. *)
Definition isPunctuation (c : code_unit) : bool :=
  ((33 <=? c) && (c <=? 47) || (58 <=? c) && (c <=? 64)
   || (91 <=? c) && (c <=? 96) || (123 <=? c) && (c <=? 126))%N.

Definition isBoundary (c : code_unit) : bool := isWhiteSpace c || isPunctuation c.

Definition caseFold (c : code_unit) : code_unit :=
  if ((65 <=? c) && (c <=? 90))%N then (c + 32)%N else c.

(** The case-folded runs between boundaries, [current] being the run read so
    far, last character first. *)
Fixpoint words (current : jsstring) (s : jsstring) : list jsstring :=
  match s with
  | [] => [rev current]
  | c :: s' =>
      if isBoundary c then rev current :: words [] s'
      else words (caseFold c :: current) s'
  end.

(** The elements of a list with their order in it. *)
Definition enumerate (A : Type) (l : list A) : list (nat * A) :=
  combine (seq 0 (List.length l)) l.

(** Modelled from the spec: the tie-break of the ranking (section 4.3), book
    insertion order, then section order, then paragraph order. *)
Definition place_leb (p q : position) : bool :=
  let '(b1, s1, p1) := p in
  let '(b2, s2, p2) := q in
  if (b1 <? b2)%nat then true
  else if (b2 <? b1)%nat then false
  else if (s1 <? s2)%nat then true
  else if (s2 <? s1)%nat then false
  else (p1 <=? p2)%nat.

(** Modelled from the spec: best first; equal scores by place in the
    corpus. *)
Definition outranks (a b : AnswerCandidate) : bool :=
  match (relevance b ?= relevance a)%Q with
  | Lt => true
  | Eq => place_leb (place (paragraph a)) (place (paragraph b))
  | Gt => false
  end.

(** The ranked list is built by insertion. *)
Fixpoint insert (c : AnswerCandidate) (ranked : list AnswerCandidate)
  : list AnswerCandidate :=
  match ranked with
  | [] => [c]
  | d :: rest => if outranks c d then c :: ranked else d :: insert c rest
  end.

Definition rank (cands : list AnswerCandidate) : list AnswerCandidate :=
  fold_right insert [] cands.

(** The order of the ranked list as the specification words it: a strictly
    better score, or the same score and an earlier place, by book, then
    section, then paragraph. *)
Definition place_lt (p q : position) : Prop :=
  let '(b1, s1, p1) := p in
  let '(b2, s2, p2) := q in
  (b1 < b2 \/ (b1 = b2 /\ (s1 < s2 \/ (s1 = s2 /\ p1 < p2))))%nat.

Definition ranksBefore (a b : AnswerCandidate) : Prop :=
  (relevance b < relevance a)%Q
  \/ ((relevance a == relevance b)%Q
      /\ place_lt (place (paragraph a)) (place (paragraph b))).

(** What the comparison of [rank] guarantees of a list. *)
Definition ordered (l : list AnswerCandidate) : Prop :=
  StronglySorted (fun a b => outranks a b = true) l.

Section Model.

(** The fixed stop-word set, the two numeric functions of the score
    ([log((N + 1) / (n + 1)) + 1] and the square root of the token count,
    both floating point in an implementation), the composer's threshold,
    the number of supporting excerpts and their truncation are not fixed
    by the specification beyond their role. *)
Variable stopWords : list token.
Variable idf : nat -> nat -> Q.
Variable lengthNorm : nat -> Q.
Variable threshold : Q.
Variable maxSupporting : nat.
Variable excerpt : jsstring -> jsstring.

(** Modelled from the spec: the tokenizer (section 4.1), case folding,
    splitting at white space and punctuation, stop words removed. *)
Definition normalize (s : jsstring) : list token :=
  filter (fun w => truthy w && negb (mem w stopWords)) (words [] s).

(** Modelled from the spec: the index builder (section 4.2). *)
Definition indexSection (bi : nat) (b : Book) (si : nat) (s : BookSection) : Index :=
  map (fun '(pi, p) =>
         {| place := (bi, si, pi);
            book := b;
            section := heading s;
            text := p;
            tokens := normalize p |})
      (enumerate (paragraphs s)).

Definition indexBook (bi : nat) (b : Book) : Index :=
  flat_map (fun '(si, s) => indexSection bi b si s) (enumerate (sections b)).

Definition build (corpus : list Book) : Index :=
  flat_map (fun '(bi, b) => indexBook bi b) (enumerate corpus).

(** Modelled from the spec: the score of a paragraph (section 4.3). *)
Definition termFrequency (t : token) (p : IndexedParagraph) : nat :=
  List.length (filter (str_eqb t) (tokens p)).

Definition paragraphsContaining (index : Index) (t : token) : nat :=
  List.length (filter (fun p => mem t (tokens p)) index).

Definition inverseDocumentFrequency (index : Index) (t : token) : Q :=
  idf (List.length index) (paragraphsContaining index t).

Definition score (index : Index) (queryTokens : list token) (p : IndexedParagraph) : Q :=
  fold_right
    (fun t acc => inject_Z (Z.of_nat (termFrequency t p))
                  * inverseDocumentFrequency index t + acc)
    0 queryTokens
  / lengthNorm (List.length (tokens p)).

(** Some query token occurs in the paragraph. *)
Definition matches (queryTokens : list token) (p : IndexedParagraph) : bool :=
  existsb (fun t => mem t (tokens p)) queryTokens.

(** Modelled from the spec: the scope of a query (section 4.3), one book or
    the whole library. *)
Definition inScope (options : Qa.FindOptions) (p : IndexedParagraph) : bool :=
  match Qa.scope options, Qa.bookId options with
  | Qa.library_scope, _ => true
  | Qa.book_scope, Some b => str_eqb (id (book p)) b
  | Qa.book_scope, None => false
  end.

(** Modelled from the spec: the candidates of a query (section 4.3), the
    paragraphs in scope that contain a query token, each with its score. *)
Definition candidates (index : Index) (queryTokens : list token)
           (options : Qa.FindOptions) : list AnswerCandidate :=
  map (fun p => {| paragraph := p; relevance := score index queryTokens p |})
      (filter (fun p => inScope options p && matches queryTokens p) index).

(** Modelled from the spec: [search] (section 4.3).  Book scope without a
    book id fails the call; a query without tokens matches nothing. *)
Definition search (index : Index) (queryTokens : list token)
           (options : Qa.FindOptions) : completion (list AnswerCandidate) :=
  match Qa.scope options, Qa.bookId options with
  | Qa.book_scope, None => Throw (Failure (lit "InvalidScope"))
  | _, _ => Value (rank (candidates index queryTokens options))
  end.

(** Modelled from the spec: the supporting excerpts of the top candidate,
    its siblings in the same section that share a token with the query. *)
Definition sibling (top p : IndexedParagraph) : bool :=
  let '(b1, s1, p1) := place top in
  let '(b2, s2, p2) := place p in
  (b1 =? b2)%nat && (s1 =? s2)%nat && negb (p1 =? p2)%nat.

Definition supportingFor (index : Index) (queryTokens : list token)
           (top : AnswerCandidate) : list jsstring :=
  map (fun p => excerpt (text p))
      (firstn maxSupporting
         (filter (fun p => sibling (paragraph top) p && matches queryTokens p) index)).

(** Modelled from the spec: the answer composer (section 4.4). *)
Definition compose (top : AnswerCandidate) (supporting : list jsstring)
  : option Qa.Answer :=
  if Qle_bool threshold (relevance top) then
    Some {| Qa.answer := text (paragraph top);
            Qa.book := {| Qa.id := id (book (paragraph top));
                          Qa.title := title (book (paragraph top)) |};
            Qa.section := section (paragraph top);
            Qa.supporting := supporting |}
  else None.

(** Modelled from the spec: [findAnswer] of [@/lib/qa], tokenizer, search
    and composer in sequence. *)
Definition findAnswer (index : Index) (question : jsstring)
           (options : Qa.FindOptions) : completion (option Qa.Answer) :=
  let queryTokens := normalize question in
  match search index queryTokens options with
  | Value [] => Value None
  | Value (top :: _) => Value (compose top (supportingFor index queryTokens top))
  | Throw e => Throw e
  | Pending => Pending
  end.

(** The translation backend, which may be unavailable or not support a
    language. *)
Variable backend : jsstring -> jsstring -> completion jsstring.

(** Modelled from the spec: [translateFromEnglish] of [@/lib/translation]
    (section 4.6), which is not in the sources.  Target [en] is a no-op; any
    other target goes to the translation backend, whose failure is the
    translator's. *)
Definition translateFromEnglish (text targetLanguage : jsstring)
  : completion jsstring :=
  if str_eqb targetLanguage (lit "en") then Value text
  else backend text targetLanguage.

End Model.

End Engine.

(** ** A small corpus and stand-ins for the collaborators *)

Module Sample.

Import Engine.

Definition stopWords : list token :=
  map lit ["a"; "an"; "the"; "of"; "in"; "on"; "to"; "through"; "how"; "do";
           "does"; "is"; "are"; "was"; "be"]%string.

(** Rational stand-ins for the logarithm and the square root. *)
Definition idf (total containing : nat) : Q :=
  (inject_Z (Z.of_nat (total + 1)) / inject_Z (Z.of_nat (containing + 1))) + 1.

Definition lengthNorm (count : nat) : Q := inject_Z (Z.of_nat (Nat.sqrt count)).

Definition threshold : Q := 1 # 10.

Definition excerpt (s : jsstring) : jsstring := s.

Definition climateAtlas : Book :=
  {| id := lit "climate-atlas";
     title := lit "Climate Atlas";
     author := lit "A. Author";
     year := 2020;
     language := lit "en";
     tags := [lit "climate"];
     description := lit "An atlas of climate policy.";
     sections :=
       [ {| heading := lit "Carbon Markets";
            paragraphs :=
              [ lit "Carbon markets price emissions through tradable permits." ] |} ] |}.

Definition marketDesign : Book :=
  {| id := lit "market-design";
     title := lit "Market Design";
     author := lit "B. Author";
     year := 2021;
     language := lit "en";
     tags := [lit "economics"];
     description := lit "How markets are built.";
     sections :=
       [ {| heading := lit "Permits";
            paragraphs :=
              [ lit "Tradable permits cap total emissions.";
                lit "Auctions allocate permits among firms." ] |};
         {| heading := lit "Prices";
            paragraphs := [ lit "Prices carry scarce information." ] |} ] |}.

Definition corpus : list Book := [climateAtlas; marketDesign].

Definition index : Index := build stopWords corpus.

Definition search := Engine.search idf lengthNorm.

Definition findAnswer := Engine.findAnswer stopWords idf lengthNorm threshold 2 excerpt.

(** A translation backend that is down. *)
Definition unavailable (text targetLanguage : jsstring) : completion jsstring :=
  Throw (Failure (lit "translation backend unavailable")).

(** A translator that takes every message for English. *)
Definition passThrough (message : jsstring) : completion Translation.ToEnglish :=
  Value {| Translation.text := message; Translation.detected := lit "en" |}.

(** A translator that returns no text. *)
Definition noText (message : jsstring) : completion Translation.ToEnglish :=
  Value {| Translation.text := []; Translation.detected := lit "und" |}.

Definition collaborators : ChatRoute.Collaborators :=
  {| ChatRoute.translateToEnglish := passThrough;
     ChatRoute.findAnswer := findAnswer index;
     ChatRoute.translateFromEnglish := Engine.translateFromEnglish unavailable |}.

(** Request bodies; their numbers, if any, would be integers printed in
    decimal. *)
Definition body : Type := json Z.
Definition numberToString (n : Z) : jsstring :=
  lit (NilZero.string_of_int (Z.to_int n)).

Definition field (k : string) (v : string) : jsstring * body := (lit k, JStr (lit v)).

Definition blank : body := JObj [field "message" "   "].

Definition bookless : body := JObj [field "message" "hi"; field "scope" "book"].

Definition carbon : body :=
  JObj [field "message" "  How do carbon markets work?  "; field "scope" "library"].

Definition opera : body :=
  JObj [field "message" "opera singing techniques"; field "scope" "library"].

Definition french : body :=
  JObj [field "message" "How do carbon markets work?"; field "targetLanguage" "fr"].

Definition elsewhere : body :=
  JObj [field "message" "carbon markets"; field "scope" "book";
        field "bookId" "no-such-book"].

Definition carbonQuestion : jsstring := lit "How do carbon markets work?".

Definition carbonAnswer : Qa.Answer :=
  {| Qa.answer := lit "Carbon markets price emissions through tradable permits.";
     Qa.book := {| Qa.id := lit "climate-atlas"; Qa.title := lit "Climate Atlas" |};
     Qa.section := lit "Carbon Markets";
     Qa.supporting := [] |}.

Definition carbonBase : jsstring :=
  lit "Carbon markets price emissions through tradable permits."
  ++ [10; 10]%N ++ lit "Source: Climate Atlas " ++ [ChatRoute.em_dash]
  ++ lit " Carbon Markets".

Definition carbonPayload : ChatRoute.ChatPayload :=
  {| ChatRoute.answer := carbonBase;
     ChatRoute.baseAnswer := carbonBase;
     ChatRoute.targetLanguage := lit "en";
     ChatRoute.detectedLanguage := lit "en";
     ChatRoute.found := true;
     ChatRoute.source :=
       Some {| ChatRoute.source_id := lit "climate-atlas";
               ChatRoute.source_title := lit "Climate Atlas";
               ChatRoute.source_section := lit "Carbon Markets" |} |}.

(** The same collaborators behind a translator that returns no text. *)
Definition untranslated : ChatRoute.Collaborators :=
  {| ChatRoute.translateToEnglish := noText;
     ChatRoute.findAnswer := findAnswer index;
     ChatRoute.translateFromEnglish := Engine.translateFromEnglish unavailable |}.

End Sample.

(** ** The book detail route

    [web/src/app/api/books/[id]/route.ts].  [getBookById] of [@/lib/books] is
    taken as given; a book is the object it returns, the list of its own
    properties in order. *)

Module BookDetailRoute.

Section Route.

Variable number : Type.
Variable getBookById : jsstring -> option (list (jsstring * json number)).

Record JsonResponse : Type := {
  status : N;
  body : json number
}.

(** [const { keywords: _omitKeywords, ...rest } = book] *)
Definition rest (book : list (jsstring * json number)) : list (jsstring * json number) :=
  filter (fun property => negb (str_eqb (fst property) (lit "keywords"))) book.

Definition GET (id : jsstring) : JsonResponse :=
  match getBookById id with
  | None =>
      {| status := 404;
         body := JObj [(lit "error", JStr (lit "Book not found"))] |}
  | Some book =>
      {| status := 200;
         body := JObj [(lit "book", JObj (rest book))] |}
  end.

End Route.

End BookDetailRoute.

(** ** The PDF route

    [web/src/app/api/books/[id]/pdf/route.ts].  The document is what the
    route asks of [pdfkit]: the options of [new PDFDocument] and the calls
    made on the document, in order.  The bytes [pdfkit] makes of them are its
    own. *)

Module BookPdfRoute.

Inductive Align : Type := align_center | align_left.

Record TextOptions : Type := {
  align : option Align;
  lineGap : option Q
}.

Inductive DocCommand : Type :=
| font (name : jsstring)
| fontSize (size : Q)
| text (content : jsstring) (options : TextOptions)
| moveDown (lines : Q)
| addPage
| end_document.

Record Margins : Type := {
  top : Q;
  bottom : Q;
  left : Q;
  right : Q
}.

Record Setup : Type := {
  size : jsstring;
  margins : Margins
}.

Record BookSection : Type := {
  heading : jsstring;
  paragraphs : list jsstring
}.

Section Route.

Variable number : Type.
Variable numberToString : number -> jsstring.

(** The fields of a book the route reads. *)
Record Book : Type := {
  title : jsstring;
  author : jsstring;
  year : number;
  tags : list jsstring;
  description : jsstring;
  sections : list BookSection;
  slug : jsstring
}.

Variable getBookById : jsstring -> option Book.

(** [pdfkit], from the set-up and the calls to the bytes it emits. *)
Variable pdfkit : Setup -> list DocCommand -> list N.

Definition setup : Setup :=
  {| size := lit "A4";
     margins := {| top := 50; bottom := 50; left := 54; right := 54 |} |}.

(** U+2022, the bullet of the byline. *)
Definition bullet : code_unit := 8226%N.

(** Lines 20-57 of [buildPdf]. *)
Definition document (book : Book) : list DocCommand :=
  [ font (lit "Helvetica-Bold"); fontSize 20;
    text (title book) {| align := Some align_center; lineGap := None |};
    moveDown (1 # 2);
    font (lit "Helvetica"); fontSize 12;
    text (author book ++ [32; bullet; 32]%N ++ numberToString (year book)
          ++ [32; bullet; 32]%N ++ join (lit ", ") (tags book))
      {| align := Some align_center; lineGap := None |};
    moveDown (3 # 2);
    font (lit "Helvetica"); fontSize 12;
    text (description book) {| align := Some align_left; lineGap := Some 4 |};
    addPage ]
  ++ flat_map
       (fun section =>
          [ font (lit "Helvetica-Bold"); fontSize 16;
            text (heading section) {| align := None; lineGap := None |};
            moveDown (1 # 2) ]
          ++ flat_map
               (fun paragraph =>
                  [ font (lit "Helvetica"); fontSize 12;
                    text paragraph {| align := None; lineGap := Some 4 |};
                    moveDown (1 # 2) ])
               (paragraphs section)
          ++ [ moveDown (3 # 4) ])
       (sections book)
  ++ [ end_document ].

(** [buildPdf]: the buffer of what [pdfkit] emits until its [end]. *)
Definition buildPdf (book : Book) : list N := pdfkit setup (document book).

Inductive Response : Type :=
| json_response (status : N) (body : json number)
| binary_response (status : N) (headers : list (jsstring * jsstring)) (body : list N).

Definition GET (id : jsstring) : Response :=
  match getBookById id with
  | None =>
      json_response 404 (JObj [(lit "error", JStr (lit "Book not found"))])
  | Some book =>
      binary_response 200
        [ (lit "Content-Type", lit "application/pdf");
          (lit "Content-Disposition",
           lit "inline; filename=" ++ [34%N] ++ slug book ++ lit ".pdf" ++ [34%N]) ]
        (buildPdf book)
  end.

End Route.

(** A block of text as it is set: the font and size in force when [text] is
    called. *)
Record Block : Type := {
  block_font : jsstring;
  block_size : Q;
  block_text : jsstring;
  block_options : TextOptions
}.

Fixpoint typeset (currentFont : jsstring) (currentSize : Q)
         (commands : list DocCommand) : list Block :=
  match commands with
  | [] => []
  | font name :: rest => typeset name currentSize rest
  | fontSize size :: rest => typeset currentFont size rest
  | text content options :: rest =>
      {| block_font := currentFont; block_size := currentSize;
         block_text := content; block_options := options |}
      :: typeset currentFont currentSize rest
  | _ :: rest => typeset currentFont currentSize rest
  end.



End BookPdfRoute.

(** The blocks and the calls of one section of a book, as [buildPdf] makes
    them. *)
Definition paragraphBlock (paragraph : jsstring) : BookPdfRoute.Block :=
  {| BookPdfRoute.block_font := lit "Helvetica";
     BookPdfRoute.block_size := 12;
     BookPdfRoute.block_text := paragraph;
     BookPdfRoute.block_options :=
       {| BookPdfRoute.align := None; BookPdfRoute.lineGap := Some 4 |} |}.

Definition sectionBlocks (s : BookPdfRoute.BookSection) : list BookPdfRoute.Block :=
  {| BookPdfRoute.block_font := lit "Helvetica-Bold";
     BookPdfRoute.block_size := 16;
     BookPdfRoute.block_text := BookPdfRoute.heading s;
     BookPdfRoute.block_options :=
       {| BookPdfRoute.align := None; BookPdfRoute.lineGap := None |} |}
  :: map paragraphBlock (BookPdfRoute.paragraphs s).

Definition paragraphCommands (paragraph : jsstring) : list BookPdfRoute.DocCommand :=
  [ BookPdfRoute.font (lit "Helvetica"); BookPdfRoute.fontSize 12;
    BookPdfRoute.text paragraph
      {| BookPdfRoute.align := None; BookPdfRoute.lineGap := Some 4 |};
    BookPdfRoute.moveDown (1 # 2) ].

Definition sectionCommands (s : BookPdfRoute.BookSection)
  : list BookPdfRoute.DocCommand :=
  [ BookPdfRoute.font (lit "Helvetica-Bold"); BookPdfRoute.fontSize 16;
    BookPdfRoute.text (BookPdfRoute.heading s)
      {| BookPdfRoute.align := None; BookPdfRoute.lineGap := None |};
    BookPdfRoute.moveDown (1 # 2) ]
  ++ flat_map paragraphCommands (BookPdfRoute.paragraphs s)
  ++ [ BookPdfRoute.moveDown (3 # 4) ].

(** ** The dashboard

    [web/src/components/main-dashboard.tsx]: the state logic of the
    [MainDashboard] component, one function per handler or effect, each on the
    state cells it reads and writes. *)

(** [BookSummary] of [@/lib/books], with the fields the dashboard reads. *)
Module Catalog.

Section Summary.

Variable number : Type.

Record BookSummary : Type := {
  id : jsstring;
  title : jsstring;
  author : jsstring;
  description : jsstring;
  year : number;
  language : jsstring;
  tags : list jsstring
}.

End Summary.

End Catalog.

Module Dashboard.

Inductive Role : Type := user | assistant.

Record Meta : Type := {
  bookTitle : option jsstring;
  section : option jsstring;
  language : option jsstring
}.

(** What a rejected [fetch], or a [response.json()] that fails, throws. *)
Inductive Thrown : Type :=
| ErrorObject (message : jsstring)
| OtherThrown.

(** How [fetch] settles: rejected, or resolved with a response, of which the
    handler reads [ok] and, when it is set, the parsed body. *)
Inductive FetchOutcome : Type :=
| fetch_rejected (error : Thrown)
| fetch_response (ok : bool) (parsed : Thrown + ChatRoute.ChatPayload).

(** [String.prototype.startsWith], [String.prototype.includes] and
    [Array.prototype.includes] on strings. *)
Fixpoint startsWith (s prefix : jsstring) : bool :=
  match prefix, s with
  | [], _ => true
  | _ :: _, [] => false
  | p :: prefix', c :: s' => (p =? c)%N && startsWith s' prefix'
  end.

Fixpoint includes (s sub : jsstring) : bool :=
  startsWith s sub
  || match s with
     | [] => false
     | _ :: s' => includes s' sub
     end.

Definition arrayIncludes (items : list jsstring) (x : jsstring) : bool :=
  existsb (str_eqb x) items.

(** Lines 127-131, the updater passed to [setSelectedTags]. *)
Definition handleTagToggle (tag : jsstring) (prev : list jsstring) : list jsstring :=
  if arrayIncludes prev tag
  then filter (fun item => negb (str_eqb item tag)) prev
  else prev ++ [tag].

Section Component.

(** Years and timestamps are JavaScript numbers; [toLowerCase] is the
    built-in, with its Unicode case mapping. *)
Variable number : Type.
Variable toLowerCase : jsstring -> jsstring.

Record ChatMessage : Type := {
  id : jsstring;
  role : Role;
  text : jsstring;
  meta : option Meta;
  timestamp : number
}.

(** Lines 73-91. *)
Definition filteredBooks (books : list (Catalog.BookSummary number))
           (searchTerm languageFilter : jsstring) (selectedTags : list jsstring)
  : list (Catalog.BookSummary number) :=
  let query := toLowerCase (trim searchTerm) in
  filter
    (fun book =>
       let matchesQuery :=
         negb (truthy query)
         || includes (toLowerCase (Catalog.title book)) query
         || includes (toLowerCase (Catalog.author book)) query
         || includes (toLowerCase (Catalog.description book)) query in
       let matchesLanguage :=
         str_eqb languageFilter (lit "all")
         || str_eqb (Catalog.language book) languageFilter in
       let matchesTags :=
         negb (0 <? List.length selectedTags)%nat
         || forallb (fun tag => arrayIncludes (Catalog.tags book) tag) selectedTags in
       matchesQuery && matchesLanguage && matchesTags)
    books.

(** Lines 115-125, the effect that keeps the active book among the listed
    ones.  [Detail] is the loaded [BookDetailPayload]. *)
Variable Detail : Type.

Record Selection : Type := {
  activeBook : option (Catalog.BookSummary number);
  activeBookDetail : option Detail
}.

Definition syncActiveBook (filtered : list (Catalog.BookSummary number))
           (s : Selection) : Selection :=
  match filtered with
  | [] => {| activeBook := None; activeBookDetail := None |}
  | first :: _ =>
      match activeBook s with
      | Some active =>
          if negb (existsb (fun book => str_eqb (Catalog.id book) (Catalog.id active))
                     filtered)
          then {| activeBook := Some first; activeBookDetail := activeBookDetail s |}
          else s
      | None => s
      end
  end.

(** The three cells [handleSubmit] writes. *)
Record ChatCells : Type := {
  chatMessages : list ChatMessage;
  chatInput : jsstring;
  chatLoading : bool
}.

(** The body of the request of lines 152-161, as the route parses it:
    [JSON.stringify] leaves out [bookId] when no book is active. *)
Definition requestBody (trimmed : jsstring) (bookId : option jsstring)
           (chatScope targetLanguage : jsstring) : json number :=
  JObj ([(lit "message", JStr trimmed)]
        ++ match bookId with
           | Some b => [(lit "bookId", JStr b)]
           | None => []
           end
        ++ [(lit "scope", JStr chatScope);
            (lit "targetLanguage", JStr targetLanguage)]).

(** Lines 133-161, [handleSubmit] up to its [fetch]: the cells after the
    three updates and the body sent, if any.  [newId] and [now] are what
    [generateId()] and [Date.now()] return. *)
Definition handleSubmit (activeBook : option (Catalog.BookSummary number))
           (chatScope targetLanguage : jsstring)
           (newId : jsstring) (now : number) (cells : ChatCells)
  : ChatCells * option (json number) :=
  let trimmed := trim (chatInput cells) in
  if negb (truthy trimmed) || chatLoading cells then (cells, None)
  else
    ({| chatMessages :=
          chatMessages cells
          ++ [{| id := newId; role := user; text := trimmed; meta := None;
                 timestamp := now |}];
        chatInput := [];
        chatLoading := true |},
     Some (requestBody trimmed (option_map (@Catalog.id number) activeBook)
             chatScope targetLanguage)).

(** Lines 182-194, the message of the [catch] block. *)
Definition failureMessage (error : Thrown) (newId : jsstring) (now : number)
  : ChatMessage :=
  {| id := newId;
     role := assistant;
     text := match error with
             | ErrorObject message => message
             | OtherThrown =>
                 lit "An unexpected error occurred while processing the request."
             end;
     meta := None;
     timestamp := now |}.

(** Lines 163-197, [handleSubmit] once its [fetch] has settled, on the cells
    as they are then. *)
Definition handleSubmit_settled (outcome : FetchOutcome)
           (newId : jsstring) (now : number) (cells : ChatCells) : ChatCells :=
  let reply :=
    match outcome with
    | fetch_rejected error => failureMessage error newId now
    | fetch_response false _ =>
        failureMessage (ErrorObject (lit "Chat service unavailable")) newId now
    | fetch_response true (inl error) => failureMessage error newId now
    | fetch_response true (inr payload) =>
        {| id := newId;
           role := assistant;
           text := ChatRoute.answer payload;
           meta :=
             Some {| bookTitle :=
                       option_map ChatRoute.source_title (ChatRoute.source payload);
                     section :=
                       option_map ChatRoute.source_section (ChatRoute.source payload);
                     language := Some (ChatRoute.targetLanguage payload) |};
           timestamp := now |}
    end in
  {| chatMessages := chatMessages cells ++ [reply];
     chatInput := chatInput cells;
     chatLoading := false |}.

(** Lines 201-208, the effect that feeds the voice panel. *)
Definition syncVoiceText (messages : list ChatMessage) (voiceText : jsstring)
  : jsstring :=
  match find (fun message => match role message with
                             | assistant => true
                             | user => false
                             end)
             (rev messages) with
  | Some lastAssistantMessage => text lastAssistantMessage
  | None => voiceText
  end.

End Component.

End Dashboard.

(** ** Predicates used to state what the handlers do *)

(** A computation that did not return a value ends the request with the
    same outcome. *)
Definition stopped (A B : Type) (c : completion A) (r : completion B) : Prop :=
  (exists e, c = Throw e /\ r = Throw e) \/ (c = Pending /\ r = Pending).

Section Printable.

Variable number : Type.


End Printable.

(** The messages of the guide, as opposed to the user's. *)
Definition isAssistant (number : Type) (message : Dashboard.ChatMessage number) : bool :=
  match Dashboard.role message with
  | Dashboard.assistant => true
  | Dashboard.user => false
  end.


(** ** A shelf and a conversation for the dashboard *)

Module SampleUi.

(** Lower case for the letters A to Z, which is what [toLowerCase] does on
    text without other cased characters. *)
Definition asciiLower (s : jsstring) : jsstring :=
  map (fun c => if ((65 <=? c) && (c <=? 90))%N then (c + 32)%N else c) s.

Definition atlas : Catalog.BookSummary Z :=
  {| Catalog.id := lit "climate-atlas";
     Catalog.title := lit "Climate Atlas";
     Catalog.author := lit "A. Author";
     Catalog.description := lit "An atlas of climate policy.";
     Catalog.year := 2020%Z;
     Catalog.language := lit "en";
     Catalog.tags := [lit "climate"; lit "policy"] |}.

Definition design : Catalog.BookSummary Z :=
  {| Catalog.id := lit "market-design";
     Catalog.title := lit "Market Design";
     Catalog.author := lit "B. Author";
     Catalog.description := lit "How markets are built.";
     Catalog.year := 2021%Z;
     Catalog.language := lit "en";
     Catalog.tags := [lit "economics"; lit "policy"] |}.

Definition jardin : Catalog.BookSummary Z :=
  {| Catalog.id := lit "le-jardin";
     Catalog.title := lit "Le Jardin";
     Catalog.author := lit "C. Auteur";
     Catalog.description := lit "Un livre sur les jardins.";
     Catalog.year := 2019%Z;
     Catalog.language := lit "fr";
     Catalog.tags := [lit "culture"] |}.

Definition shelf : list (Catalog.BookSummary Z) := [atlas; design; jardin].

Definition typing : Dashboard.ChatCells Z :=
  {| Dashboard.chatMessages := [];
     Dashboard.chatInput := lit "  How do carbon markets work?  ";
     Dashboard.chatLoading := false |}.

Definition asked : Dashboard.ChatMessage Z :=
  {| Dashboard.id := lit "m1";
     Dashboard.role := Dashboard.user;
     Dashboard.text := lit "How do carbon markets work?";
     Dashboard.meta := None;
     Dashboard.timestamp := 1000%Z |}.

Definition answered : Dashboard.ChatMessage Z :=
  {| Dashboard.id := lit "m2";
     Dashboard.role := Dashboard.assistant;
     Dashboard.text := lit "Carbon markets price emissions.";
     Dashboard.meta := None;
     Dashboard.timestamp := 2000%Z |}.

(** The detail record of a book, with its keywords. *)
Definition atlasRecord : list (jsstring * json Z) :=
  [ (lit "id", JStr (lit "climate-atlas"));
    (lit "title", JStr (lit "Climate Atlas"));
    (lit "keywords", JArr [JStr (lit "carbon"); JStr (lit "markets")]);
    (lit "year", JNum 2020%Z) ].

Definition getBookById (id : jsstring) : option (list (jsstring * json Z)) :=
  if str_eqb id (lit "climate-atlas") then Some atlasRecord else None.

(** What the dashboard sends for [typing] with the atlas active, in book
    scope, answers in English. *)
Definition question : json Z :=
  Dashboard.requestBody Z (lit "How do carbon markets work?")
    (Some (lit "climate-atlas")) (lit "book") (lit "en").


Definition followUp : Dashboard.ChatMessage Z :=
  {| Dashboard.id := lit "m3";
     Dashboard.role := Dashboard.user;
     Dashboard.text := lit "And who trades them?";
     Dashboard.meta := None;
     Dashboard.timestamp := 3000%Z |}.

Definition atlasPdf : BookPdfRoute.Book Z :=
  {| BookPdfRoute.title := lit "Climate Atlas";
     BookPdfRoute.author := lit "A. Author";
     BookPdfRoute.year := 2020%Z;
     BookPdfRoute.tags := [lit "climate"; lit "policy"];
     BookPdfRoute.description := lit "An atlas of climate policy.";
     BookPdfRoute.sections :=
       [ {| BookPdfRoute.heading := lit "Carbon Markets";
            BookPdfRoute.paragraphs :=
              [ lit "Carbon markets price emissions through tradable permits.";
                lit "Permits are auctioned." ] |};
         {| BookPdfRoute.heading := lit "Empty Section";
            BookPdfRoute.paragraphs := [] |} ];
     BookPdfRoute.slug := lit "climate-atlas" |}.

End SampleUi.

(** ** Facts about [trim] *)

Lemma trimStart_trimmed (s : jsstring) : trimmedStart (trimStart s).
Proof.
  induction s as [|c s IH]; simpl; [exact I|].
  destruct (isWhiteSpace c) eqn:E; [exact IH|exact E].
Qed.

Lemma trimStart_fixed (s : jsstring) : trimmedStart s -> trimStart s = s.
Proof.
  destruct s as [|c s]; simpl; [reflexivity|].
  intros ->. reflexivity.
Qed.

Lemma trimStart_suffix (s : jsstring) : exists w, s = w ++ trimStart s.
Proof.
  induction s as [|c s [w IH]]; simpl.
  - exists []. reflexivity.
  - destruct (isWhiteSpace c).
    + exists (c :: w). simpl. f_equal. exact IH.
    + exists []. reflexivity.
Qed.

Lemma trimEnd_prefix (s : jsstring) : exists w, s = trimEnd s ++ w.
Proof.
  unfold trimEnd. destruct (trimStart_suffix (rev s)) as [w E].
  exists (rev w). rewrite <- rev_app_distr, <- E. symmetry. apply rev_involutive.
Qed.

Lemma trimmedStart_prefix (a b : jsstring) : trimmedStart (a ++ b) -> trimmedStart a.
Proof. destruct a; simpl; auto. Qed.

Lemma trimEnd_idempotent (s : jsstring) : trimEnd (trimEnd s) = trimEnd s.
Proof.
  unfold trimEnd. rewrite rev_involutive.
  rewrite (trimStart_fixed _ (trimStart_trimmed (rev s))). reflexivity.
Qed.

Lemma trim_idempotent (s : jsstring) : trim (trim s) = trim s.
Proof.
  unfold trim.
  assert (H : trimmedStart (trimEnd (trimStart s))).
  { destruct (trimEnd_prefix (trimStart s)) as [w E].
    apply trimmedStart_prefix with (b := w). rewrite <- E. apply trimStart_trimmed. }
  rewrite (trimStart_fixed _ H). apply trimEnd_idempotent.
Qed.

Lemma truthy_nonempty (s : jsstring) : truthy s = true <-> s <> [].
Proof. destruct s; simpl; split; congruence. Qed.

Lemma str_eqb_eq (a b : jsstring) : str_eqb a b = true <-> a = b.
Proof. unfold str_eqb. destruct (list_eq_dec N.eq_dec a b); split; congruence. Qed.

(** ** The route handler *)

Import ChatRoute.

(** Unfold the handler and split on what each collaborator does. *)
Ltac run_POST :=
  unfold POST, bind, lift, invoke, ret;
  repeat match goal with
         | |- context [match ?c with _ => _ end] => destruct c eqn:?; simpl
         | |- context [if ?c then _ else _] => destruct c eqn:?; simpl
         end.

Section RouteFacts.

Variable number : Type.
Variable numberToString : number -> jsstring.

Lemma message_of_trimmed (body : json number) (m : jsstring) :
  message_of numberToString body = Value m -> trim m = m.
Proof.
  unfold message_of.
  destruct (String _ _); intros H; inversion H. apply trim_idempotent.
Qed.

(** The run of a request whose three calls return. *)
Lemma POST_returns (body : json number) (env : Collaborators)
      (m : jsstring) (t : Translation.ToEnglish) (a : option Qa.Answer)
      (localized : jsstring) :
  let question := if truthy (Translation.text t) then Translation.text t else m in
  let base := match a with Some x => composed x | None => fallbackAnswer end in
  message_of numberToString body = Value m ->
  m <> [] ->
  translateToEnglish env m = Value t ->
  findAnswer env question (options_of body) = Value a ->
  translateFromEnglish env base (targetLanguage_of body) = Value localized ->
  POST numberToString body env =
    ([call_translateToEnglish m;
      call_findAnswer question (options_of body);
      call_translateFromEnglish base (targetLanguage_of body)],
     Value
       {| status := 200;
          data :=
            Chat {| answer := localized;
                    baseAnswer := base;
                    targetLanguage := targetLanguage_of body;
                    detectedLanguage := Translation.detected t;
                    found := match a with Some _ => true | None => false end;
                    source :=
                      match a with
                      | Some x => Some {| source_id := Qa.id (Qa.book x);
                                          source_title := Qa.title (Qa.book x);
                                          source_section := Qa.section x |}
                      | None => None
                      end |} |}).
Proof.
  intros question base Hm Hne Ht Ha Hl.
  apply truthy_nonempty in Hne.
  unfold ChatRoute.POST, bind, lift, invoke, ret.
  rewrite Hm, Hne. simpl. rewrite Ht.
  fold question. unfold options_of in Ha. rewrite Ha.
  fold base. rewrite Hl. reflexivity.
Qed.


(** Split a run given as a hypothesis on what each collaborator did. *)
Ltac split_run H :=
  unfold POST, bind, lift, invoke, ret in H;
  repeat match type of H with
         | context [match ?c with Value _ => _ | Throw _ => _ | Pending => _ end] =>
             destruct c eqn:?; simpl in H
         | context [if negb (truthy ?m) then _ else _] =>
             destruct (truthy m) eqn:?; simpl in H
         end.

Lemma composed_contains (a : Qa.Answer) :
  exists between after,
    composed a =
      Qa.answer a ++ between
      ++ (lit "Source: " ++ Qa.title (Qa.book a) ++ [32; em_dash; 32]%N ++ Qa.section a)
      ++ after.
Proof.
  unfold composed.
  destruct (Qa.answer a) as [|c s], (Qa.supporting a) as [|x xs].
  - exists [], []. simpl. now rewrite app_nil_r.
  - exists [], ([10; 10]%N ++ lit "Related context: " ++ join (lit " / ") (x :: xs)).
    reflexivity.
  - exists [10; 10]%N, []. simpl. now rewrite !app_nil_r.
  - exists [10; 10]%N,
      ([10; 10]%N ++ lit "Related context: " ++ join (lit " / ") (x :: xs)).
    cbn [filter truthy Nat.ltb Nat.leb List.length join app lit map
         list_ascii_of_string].
    rewrite <- !app_assoc. reflexivity.
Qed.

(** C2. A request whose message trims to the empty string is answered with
    status 400 and an error body, and no collaborator is called.  Whenever
    translation is called, it is with the request's message, which is not
    empty and is trimmed, and retrieval is never queried with the empty
    string. *)
Theorem empty_message_rejected (body : json number) (env : Collaborators) :
  (message_of numberToString body = Value [] ->
   POST numberToString body env =
     ([], Value {| status := 400;
                   data := ErrorPayload (lit "Message must not be empty.") |}))
  /\ (forall m,
         In (call_translateToEnglish m) (fst (POST numberToString body env)) ->
         message_of numberToString body = Value m /\ m <> [] /\ trim m = m)
  /\ (forall q o,
         In (call_findAnswer q o) (fst (POST numberToString body env)) -> q <> []).
Proof.
  split; [|split].
  - intros H. unfold POST, bind, lift, ret. rewrite H. reflexivity.
  - intros m H.
    assert (E : message_of numberToString body = Value m /\ truthy m = true).
    { split_run H; simpl in H; intuition (try discriminate);
        match goal with X : call_translateToEnglish _ = _ |- _ => inversion X; subst end;
        auto. }
    destruct E as [E T]. split; [exact E|]. split.
    + now apply truthy_nonempty.
    + now apply message_of_trimmed with (body := body).
  - intros q o H.
    split_run H; simpl in H; intuition (try discriminate);
      match goal with X : call_findAnswer _ _ = _ |- _ => inversion X; subst end;
      match goal with
      | X : (if truthy ?t then _ else _) = [] |- _ =>
          destruct (truthy t) eqn:?; subst
      end;
      try discriminate;
      match goal with
      | X : truthy ?t = true, Y : ?t = [] |- _ => rewrite Y in X; discriminate
      | X : truthy [] = true |- _ => discriminate
      end.
Qed.

(** Every call to retrieval carries the options read from the body, and
    every call to the translator back carries the requested language. *)
Lemma calls_carry_request (body : json number) (env : Collaborators) :
  (forall q o,
      In (call_findAnswer q o) (fst (POST numberToString body env)) ->
      o = options_of body)
  /\ (forall t l,
         In (call_translateFromEnglish t l) (fst (POST numberToString body env)) ->
         l = targetLanguage_of body).
Proof.
  split.
  - intros q o H.
    split_run H; simpl in H; intuition (try discriminate);
      match goal with X : call_findAnswer _ _ = _ |- _ => inversion X end;
      reflexivity.
  - intros t l H.
    split_run H; simpl in H; intuition (try discriminate);
      match goal with X : call_translateFromEnglish _ _ = _ |- _ => inversion X end;
      reflexivity.
Qed.

(** What a run that returns a response looks like. *)
Lemma POST_response (body : json number) (env : Collaborators) (r : Response) :
  snd (POST numberToString body env) = Value r ->
  (message_of numberToString body = Value []
   /\ r = json_response (ErrorPayload (lit "Message must not be empty.")) (Some 400%N))
  \/ exists m t a localized,
      let question := if truthy (Translation.text t) then Translation.text t else m in
      let base := match a with Some x => composed x | None => fallbackAnswer end in
      message_of numberToString body = Value m
      /\ m <> []
      /\ translateToEnglish env m = Value t
      /\ findAnswer env question (options_of body) = Value a
      /\ translateFromEnglish env base (targetLanguage_of body) = Value localized.
Proof.
  intros H.
  unfold POST, bind, lift, invoke, ret in H.
  destruct (message_of numberToString body) as [m| |] eqn:Hm; try discriminate.
  destruct (truthy m) eqn:Ht; simpl in H.
  - right.
    destruct (translateToEnglish env m) as [t| |] eqn:Hto; try discriminate.
    destruct (findAnswer env _ _) as [a| |] eqn:Hfa in H; try discriminate.
    destruct (translateFromEnglish env _ _) as [localized| |] eqn:Hfrom in H;
      try discriminate.
    exists m, t, a, localized. cbv zeta.
    repeat split; try assumption. now apply truthy_nonempty.
  - left. destruct m; [|discriminate]. split; [reflexivity|].
    inversion H. reflexivity.
Qed.

(** C8. The handler applies the defaults when it reads the body: a [scope]
    that is absent or is not the string [book] gives library scope, a
    [targetLanguage] that is absent or is not a string gives [en]; these are
    the values passed to retrieval and translation and reported back. *)
Theorem request_defaults (body : json number) :
  (get body (lit "scope") <> Some (JStr (lit "book")) ->
   scope_of body = Qa.library_scope)
  /\ ((forall s, get body (lit "targetLanguage") <> Some (JStr s)) ->
      targetLanguage_of body = lit "en")
  /\ (forall env q o,
         In (call_findAnswer q o) (fst (POST numberToString body env)) ->
         Qa.scope o = scope_of body)
  /\ (forall env t l,
         In (call_translateFromEnglish t l) (fst (POST numberToString body env)) ->
         l = targetLanguage_of body)
  /\ (forall env r p,
         snd (POST numberToString body env) = Value r ->
         data r = Chat p ->
         targetLanguage p = targetLanguage_of body).
Proof.
  repeat split.
  - intros H. unfold scope_of.
    destruct (get body (lit "scope")) as [[| | |s| |]|]; try reflexivity.
    destruct (str_eqb s (lit "book")) eqn:E; [|reflexivity].
    apply str_eqb_eq in E. subst s. now contradiction H.
  - intros H. unfold targetLanguage_of, asString.
    destruct (get body (lit "targetLanguage")) as [[| | |s| |]|]; try reflexivity.
    now contradiction (H s).
  - intros env q o H.
    now rewrite (proj1 (calls_carry_request body env) q o H).
  - intros env t l H. exact (proj2 (calls_carry_request body env) t l H).
  - intros env r p H D.
    destruct (POST_response body env H) as [[_ ->]|(m & t & a & localized & E)].
    + discriminate.
    + cbv zeta in E. destruct E as (Hm & Hne & Hto & Hfa & Hfrom).
      rewrite (POST_returns body env Hm Hne Hto Hfa Hfrom) in H.
      simpl in H. inversion H; subst r. simpl in D. inversion D. reflexivity.
Qed.

(** C9. When [translateToEnglish] returns an empty text for a non-empty
    message, retrieval is queried with the original message, never with
    the empty string. *)
Theorem empty_translation_falls_back
        (body : json number) (env : Collaborators)
        (m : jsstring) (t : Translation.ToEnglish) :
  message_of numberToString body = Value m ->
  m <> [] ->
  translateToEnglish env m = Value t ->
  Translation.text t = [] ->
  (exists rest,
      fst (POST numberToString body env) =
        call_translateToEnglish m :: call_findAnswer m (options_of body) :: rest)
  /\ (forall q o,
         In (call_findAnswer q o) (fst (POST numberToString body env)) -> q = m).
Proof.
  intros Hm Hne Hto Htext.
  apply truthy_nonempty in Hne.
  assert (E : exists rest,
             fst (POST numberToString body env) =
               call_translateToEnglish m :: call_findAnswer m (options_of body) :: rest
             /\ forall q o, In (call_findAnswer q o) rest -> False).
  { unfold POST, bind, lift, invoke, ret.
    rewrite Hm, Hne. simpl. rewrite Hto, Htext. simpl.
    fold (options_of body).
    destruct (findAnswer env m (options_of body)) as [a| |]; simpl.
    - destruct (translateFromEnglish env _ _); simpl;
        eexists; (split; [reflexivity|]); simpl; intuition discriminate.
    - exists []. split; [reflexivity|]. simpl. tauto.
    - exists []. split; [reflexivity|]. simpl. tauto. }
  destruct E as (rest & E & Hrest). split; [now exists rest|].
  intros q o H. rewrite E in H. simpl in H.
  destruct H as [H|[H|H]].
  - discriminate.
  - now inversion H.
  - now destruct (Hrest q o H).
Qed.

(** C3. When retrieval yields no answer, the handler returns normally:
    status 200, [found = false], [baseAnswer] the fixed fallback message,
    [source = null]. *)
Theorem no_answer_is_fallback
        (body : json number) (env : Collaborators)
        (m : jsstring) (t : Translation.ToEnglish) (localized : jsstring) :
  message_of numberToString body = Value m ->
  m <> [] ->
  translateToEnglish env m = Value t ->
  findAnswer env (if truthy (Translation.text t) then Translation.text t else m)
    (options_of body) = Value None ->
  translateFromEnglish env fallbackAnswer (targetLanguage_of body) = Value localized ->
  exists calls p,
    POST numberToString body env = (calls, Value {| status := 200; data := Chat p |})
    /\ found p = false
    /\ baseAnswer p = fallbackAnswer
    /\ source p = None
    /\ answer p = localized.
Proof.
  intros Hm Hne Hto Hfa Hfrom.
  rewrite (POST_returns body env (a := None) Hm Hne Hto Hfa Hfrom).
  eexists. eexists. split; [reflexivity|]. simpl. auto.
Qed.

(** C10. In a chat response, [found] is true exactly when [source] is not
    null; and when it is, the source names the book and section of the
    answer retrieval returned, and [baseAnswer] is the answer text followed
    by the line [Source: title, dash, section]. *)
Theorem response_fields_consistent
        (body : json number) (env : Collaborators) (r : Response) (p : ChatPayload) :
  snd (POST numberToString body env) = Value r ->
  data r = Chat p ->
  (found p = true <-> source p <> None)
  /\ (found p = true ->
      exists a s,
        (exists q, In (call_findAnswer q (options_of body))
                      (fst (POST numberToString body env))
                   /\ findAnswer env q (options_of body) = Value (Some a))
        /\ source p = Some s
        /\ source_id s = Qa.id (Qa.book a)
        /\ source_title s = Qa.title (Qa.book a)
        /\ source_section s = Qa.section a
        /\ exists between after,
            baseAnswer p =
              Qa.answer a ++ between
              ++ (lit "Source: " ++ source_title s ++ [32; em_dash; 32]%N
                  ++ source_section s)
              ++ after).
Proof.
  intros H D.
  destruct (POST_response body env H) as [[_ ->]|(m & t & a & localized & E)].
  - discriminate.
  - cbv zeta in E. destruct E as (Hm & Hne & Hto & Hfa & Hfrom).
    pose proof (POST_returns body env Hm Hne Hto Hfa Hfrom) as Run.
    rewrite Run in H. simpl in H. inversion H; subst r. simpl in D.
    inversion D; subst p. simpl. clear H D.
    destruct a as [a|]; simpl.
    + split; [split; [discriminate|reflexivity]|].
      intros _. eexists a, _. split.
      * eexists. split; [|exact Hfa]. rewrite Run. simpl. auto.
      * repeat (split; [reflexivity|]). simpl. apply composed_contains.
    + split; [split; [discriminate|congruence]|discriminate].
Qed.

(** The handler does not check the scope against the book id itself.  For
    a request with scope [book], no book id and a non-empty message, once
    [translateToEnglish] has returned the handler calls [findAnswer] with
    scope [book] and no book id (it does not substitute library scope); if
    [findAnswer] throws, so does the request, and any response the request
    produces has status 200.  *)
Lemma book_scope_without_bookId_reaches_findAnswer
        (body : json number) (env : Collaborators)
        (m : jsstring) (t : Translation.ToEnglish) :
  scope_of body = Qa.book_scope ->
  bookId_of body = None ->
  message_of numberToString body = Value m ->
  m <> [] ->
  translateToEnglish env m = Value t ->
  let question := if truthy (Translation.text t) then Translation.text t else m in
  let options := {| Qa.scope := Qa.book_scope; Qa.bookId := None |} in
  (exists rest,
      fst (POST numberToString body env) =
        call_translateToEnglish m :: call_findAnswer question options :: rest)
  /\ (forall e, findAnswer env question options = Throw e ->
                snd (POST numberToString body env) = Throw e)
  /\ (forall r, snd (POST numberToString body env) = Value r -> status r = 200%N).
Proof.
  intros Hs Hb Hm Hne Hto question options.
  assert (Ho : options_of body = options) by (unfold options_of; now rewrite Hs, Hb).
  apply truthy_nonempty in Hne.
  unfold POST, bind, lift, invoke, ret.
  rewrite Hm, Hne. simpl. rewrite Hto. fold question.
  fold (options_of body). rewrite Ho.
  destruct (findAnswer env question options) as [a| |]; simpl.
  - destruct (translateFromEnglish env _ _); simpl;
      (split; [eexists; reflexivity|]); (split; [discriminate|]);
      intros r H; inversion H; reflexivity.
  - split; [eexists; reflexivity|]. split; [now intros ? [= ->]|discriminate].
  - split; [eexists; reflexivity|]. split; discriminate.
Qed.

(** C6, as the code has it.  The handler awaits both translation calls with
    no failure path: a translation call that throws makes the request throw,
    one that never settles leaves the request pending.  When
    [translateFromEnglish] returns, the response reports the requested
    [targetLanguage] and [answer] is the returned text. *)
Theorem translation_failure_propagates
        (body : json number) (env : Collaborators) (m : jsstring) :
  message_of numberToString body = Value m ->
  m <> [] ->
  (forall e, translateToEnglish env m = Throw e ->
             snd (POST numberToString body env) = Throw e)
  /\ (translateToEnglish env m = Pending ->
      snd (POST numberToString body env) = Pending)
  /\ (forall t a,
         let question := if truthy (Translation.text t) then Translation.text t else m in
         let base := match a with Some x => composed x | None => fallbackAnswer end in
         translateToEnglish env m = Value t ->
         findAnswer env question (options_of body) = Value a ->
         (forall e, translateFromEnglish env base (targetLanguage_of body) = Throw e ->
                    snd (POST numberToString body env) = Throw e)
         /\ (translateFromEnglish env base (targetLanguage_of body) = Pending ->
             snd (POST numberToString body env) = Pending)
         /\ (forall localized,
                translateFromEnglish env base (targetLanguage_of body) = Value localized ->
                exists r p,
                  snd (POST numberToString body env) = Value r
                  /\ status r = 200%N
                  /\ data r = Chat p
                  /\ targetLanguage p = targetLanguage_of body
                  /\ baseAnswer p = base
                  /\ answer p = localized)).
Proof.
  intros Hm Hne. pose proof Hne as Hne'. apply truthy_nonempty in Hne.
  split; [|split].
  - intros e Hto. unfold POST, bind, lift, invoke, ret.
    rewrite Hm, Hne. simpl. now rewrite Hto.
  - intros Hto. unfold POST, bind, lift, invoke, ret.
    rewrite Hm, Hne. simpl. now rewrite Hto.
  - intros t a question base Hto Hfa. split; [|split].
    + intros e Hfrom. unfold POST, bind, lift, invoke, ret.
      rewrite Hm, Hne. simpl. rewrite Hto. fold question.
      fold (options_of body). rewrite Hfa. fold base. now rewrite Hfrom.
    + intros Hfrom. unfold POST, bind, lift, invoke, ret.
      rewrite Hm, Hne. simpl. rewrite Hto. fold question.
      fold (options_of body). rewrite Hfa. fold base. now rewrite Hfrom.
    + intros localized Hfrom.
      rewrite (POST_returns body env Hm Hne' Hto Hfa Hfrom).
      eexists. eexists. simpl. repeat (split; [reflexivity|]). reflexivity.
Qed.

End RouteFacts.

(** ** The engine of the specification *)

Import Engine.

Lemma place_leb_total (p q : position) : place_leb p q = true \/ place_leb q p = true.
Proof.
  destruct p as [[b1 s1] p1], q as [[b2 s2] p2]. unfold place_leb.
  destruct (Nat.ltb_spec b1 b2), (Nat.ltb_spec b2 b1); auto; try lia.
  destruct (Nat.ltb_spec s1 s2), (Nat.ltb_spec s2 s1); auto; try lia.
  destruct (Nat.leb_spec p1 p2), (Nat.leb_spec p2 p1); auto; lia.
Qed.

Lemma place_leb_trans (p q r : position) :
  place_leb p q = true -> place_leb q r = true -> place_leb p r = true.
Proof.
  destruct p as [[b1 s1] p1], q as [[b2 s2] p2], r as [[b3 s3] p3]. unfold place_leb.
  destruct (Nat.ltb_spec b1 b2), (Nat.ltb_spec b2 b1), (Nat.ltb_spec b2 b3),
    (Nat.ltb_spec b3 b2), (Nat.ltb_spec b1 b3), (Nat.ltb_spec b3 b1);
    try discriminate; try lia; auto;
    destruct (Nat.ltb_spec s1 s2), (Nat.ltb_spec s2 s1), (Nat.ltb_spec s2 s3),
      (Nat.ltb_spec s3 s2), (Nat.ltb_spec s1 s3), (Nat.ltb_spec s3 s1);
    try discriminate; try lia; auto;
    destruct (Nat.leb_spec p1 p2), (Nat.leb_spec p2 p3), (Nat.leb_spec p1 p3);
    try discriminate; try lia; auto.
Qed.

Lemma place_leb_lt (p q : position) : place_leb p q = true -> p <> q -> place_lt p q.
Proof.
  destruct p as [[b1 s1] p1], q as [[b2 s2] p2]. unfold place_leb, place_lt.
  destruct (Nat.ltb_spec b1 b2); [auto|].
  destruct (Nat.ltb_spec b2 b1); [discriminate|].
  assert (b1 = b2) by lia. subst b2.
  destruct (Nat.ltb_spec s1 s2); [auto|].
  destruct (Nat.ltb_spec s2 s1); [discriminate|].
  assert (s1 = s2) by lia. subst s2.
  destruct (Nat.leb_spec p1 p2); [|discriminate].
  intros _ D. right. split; [reflexivity|]. right. split; [reflexivity|].
  assert (p1 <> p2) by congruence. lia.
Qed.

Lemma place_lt_asym (p q : position) : place_lt p q -> place_lt q p -> False.
Proof.
  destruct p as [[b1 s1] p1], q as [[b2 s2] p2]. unfold place_lt. lia.
Qed.

Lemma ranksBefore_asym (a b : AnswerCandidate) : ranksBefore a b -> ranksBefore b a -> False.
Proof.
  unfold ranksBefore. intros [H|[E H]] [H'|[E' H']].
  - lra.
  - lra.
  - lra.
  - exact (place_lt_asym _ _ H H').
Qed.

Lemma outranks_total (a b : AnswerCandidate) : outranks a b = true \/ outranks b a = true.
Proof.
  unfold outranks. rewrite <- (Qcompare_antisym (relevance b) (relevance a)).
  destruct (relevance b ?= relevance a)%Q; simpl; auto. apply place_leb_total.
Qed.

Lemma outranks_trans (a b c : AnswerCandidate) :
  outranks a b = true -> outranks b c = true -> outranks a c = true.
Proof.
  unfold outranks.
  destruct (Qcompare_spec (relevance b) (relevance a)),
    (Qcompare_spec (relevance c) (relevance b)),
    (Qcompare_spec (relevance c) (relevance a));
    try discriminate; try lra; auto.
  apply place_leb_trans.
Qed.

Lemma outranks_ranksBefore (a b : AnswerCandidate) :
  outranks a b = true ->
  place (paragraph a) <> place (paragraph b) ->
  ranksBefore a b.
Proof.
  unfold outranks, ranksBefore.
  destruct (Qcompare_spec (relevance b) (relevance a)) as [E|L|G]; try discriminate.
  - intros H D. right. split; [lra|]. now apply place_leb_lt.
  - auto.
Qed.

(** *** Ranking is a sort *)

Lemma insert_perm (c : AnswerCandidate) (l : list AnswerCandidate) :
  Permutation (insert c l) (c :: l).
Proof.
  induction l as [|d l IH]; simpl; [reflexivity|].
  destruct (outranks c d); [reflexivity|].
  rewrite IH. apply perm_swap.
Qed.

Lemma rank_perm (l : list AnswerCandidate) : Permutation (rank l) l.
Proof.
  induction l as [|c l IH]; simpl; [reflexivity|].
  rewrite insert_perm. now constructor.
Qed.

Lemma insert_ordered (c : AnswerCandidate) (l : list AnswerCandidate) :
  ordered l -> ordered (insert c l).
Proof.
  unfold ordered. induction l as [|d l IH]; simpl; intros H.
  - repeat constructor.
  - apply StronglySorted_inv in H. destruct H as [Hl Hd].
    destruct (outranks c d) eqn:E.
    + constructor; [now constructor|]. constructor; [exact E|].
      rewrite Forall_forall in *. intros x Hx.
      apply outranks_trans with d; auto.
    + constructor; [now apply IH|].
      rewrite Forall_forall in *. intros x Hx.
      apply (Permutation_in _ (insert_perm c l)) in Hx. destruct Hx as [<-|Hx].
      * destruct (outranks_total c d); congruence.
      * now apply Hd.
Qed.

Lemma rank_ordered (l : list AnswerCandidate) : ordered (rank l).
Proof.
  induction l as [|c l IH]; simpl.
  - constructor.
  - now apply insert_ordered.
Qed.

Lemma ordered_ranksBefore (l : list AnswerCandidate) :
  NoDup (map (fun c => place (paragraph c)) l) ->
  ordered l ->
  StronglySorted ranksBefore l.
Proof.
  unfold ordered. induction l as [|c l IH]; simpl; intros N H.
  - constructor.
  - apply StronglySorted_inv in H. destruct H as [Hl Hc].
    apply NoDup_cons_iff in N. destruct N as [Nc Nl].
    constructor; [now apply IH|].
    rewrite Forall_forall in *. intros x Hx.
    apply outranks_ranksBefore; [now apply Hc|].
    intros E. apply Nc. rewrite E.
    now apply (in_map (fun c => place (paragraph c))).
Qed.

Lemma ranking_unique (l l' : list AnswerCandidate) :
  StronglySorted ranksBefore l ->
  StronglySorted ranksBefore l' ->
  Permutation l l' ->
  l = l'.
Proof.
  revert l'. induction l as [|a l IH]; intros l' S S' P.
  - symmetry. now apply Permutation_nil.
  - destruct l' as [|b l'].
    + symmetry in P. now apply Permutation_nil in P.
    + apply StronglySorted_inv in S. destruct S as [Sl Sa].
      apply StronglySorted_inv in S'. destruct S' as [Sl' Sb].
      rewrite Forall_forall in Sa, Sb.
      assert (E : a = b).
      { assert (Ha : In a (b :: l')) by (apply (Permutation_in _ P); now left).
        assert (Hb : In b (a :: l))
          by (apply (Permutation_in _ (Permutation_sym P)); now left).
        destruct Ha as [Ha|Ha]; [now symmetry|].
        destruct Hb as [Hb|Hb]; [assumption|].
        destruct (ranksBefore_asym (Sa _ Hb) (Sb _ Ha)). }
      subst b. f_equal. apply IH; auto.
      now apply Permutation_cons_inv with a.
Qed.

(** *** The index built from a corpus *)

Lemma enumerate_keys (A : Type) (l : list A) (s : nat) :
  map fst (combine (seq s (List.length l)) l) = seq s (List.length l).
Proof.
  revert s. induction l as [|x l IH]; intros s; simpl; [reflexivity|].
  now rewrite IH.
Qed.

Lemma enumerate_NoDup (A : Type) (l : list A) : NoDup (map fst (enumerate l)).
Proof. unfold enumerate. rewrite enumerate_keys. apply seq_NoDup. Qed.

Lemma enumerate_In (A : Type) (l : list A) (i : nat) (x : A) :
  In (i, x) (enumerate l) -> In x l.
Proof. unfold enumerate. apply in_combine_r. Qed.

(** Lists produced from distinct keys, each carrying its key, do not
    overlap. *)
Lemma NoDup_flat_map_keyed (A B C : Type) (f : nat * A -> list B) (h : B -> C)
      (key : C -> nat) (l : list (nat * A)) :
  NoDup (map fst l) ->
  (forall x, In x l -> NoDup (map h (f x))) ->
  (forall x y, In x l -> In y (f x) -> key (h y) = fst x) ->
  NoDup (map h (flat_map f l)).
Proof.
  induction l as [|x l IH]; simpl; intros N Hf Hk; [constructor|].
  apply NoDup_cons_iff in N. destruct N as [Nx Nl].
  rewrite map_app. apply NoDup_app.
  - apply Hf. now left.
  - apply IH; auto.
  - intros c Hc Hc'.
    apply in_map_iff in Hc. destruct Hc as (y & <- & Hy).
    apply in_map_iff in Hc'. destruct Hc' as (y' & E & Hy').
    apply in_flat_map in Hy'. destruct Hy' as (x' & Hx' & Hy').
    apply Nx. apply in_map_iff. exists x'. split; [|assumption].
    rewrite <- (Hk x' y' (or_intror Hx') Hy'), E.
    apply Hk; [now left|assumption].
Qed.

Section EngineFacts.

Variable stopWords : list token.
Variable idf : nat -> nat -> Q.
Variable lengthNorm : nat -> Q.

Lemma indexSection_In (bi si : nat) (b : Book) (s : BookSection) (p : IndexedParagraph) :
  In p (indexSection stopWords bi b si s) ->
  book p = b /\ exists pi, place p = (bi, si, pi).
Proof.
  unfold indexSection. intros H. apply in_map_iff in H.
  destruct H as ([pi x] & <- & _). simpl. eauto.
Qed.

Lemma indexBook_In (bi : nat) (b : Book) (p : IndexedParagraph) :
  In p (indexBook stopWords bi b) ->
  book p = b /\ exists si pi, place p = (bi, si, pi).
Proof.
  unfold indexBook. intros H. apply in_flat_map in H.
  destruct H as ([si s] & _ & H). apply indexSection_In in H.
  destruct H as [E [pi H]]. eauto.
Qed.

Lemma build_In (corpus : list Book) (p : IndexedParagraph) :
  In p (build stopWords corpus) -> In (book p) corpus.
Proof.
  unfold build. intros H. apply in_flat_map in H.
  destruct H as ([bi b] & Hb & H). apply indexBook_In in H.
  destruct H as [-> _]. now apply enumerate_In in Hb.
Qed.

Lemma indexSection_places (bi si : nat) (b : Book) (s : BookSection) :
  NoDup (map place (indexSection stopWords bi b si s)).
Proof.
  unfold indexSection. rewrite map_map.
  assert (E : forall l : list (nat * jsstring),
             map (fun x => place (let '(pi, p) := x in
                                  {| place := (bi, si, pi); book := b;
                                     section := heading s; text := p;
                                     tokens := normalize stopWords p |})) l
             = map (fun i => (bi, si, i)) (map fst l)).
  { intros l. rewrite map_map. apply map_ext. now intros [pi p]. }
  rewrite E. apply Injective_map_NoDup.
  - intros i j H. now inversion H.
  - apply enumerate_NoDup.
Qed.

Lemma indexBook_places (bi : nat) (b : Book) :
  NoDup (map place (indexBook stopWords bi b)).
Proof.
  unfold indexBook.
  apply NoDup_flat_map_keyed with (key := fun pl : position => snd (fst pl)).
  - apply enumerate_NoDup.
  - intros [si s] _. apply indexSection_places.
  - intros [si s] p _ H. apply indexSection_In in H.
    destruct H as [_ [pi ->]]. reflexivity.
Qed.

Lemma build_places (corpus : list Book) :
  NoDup (map place (build stopWords corpus)).
Proof.
  unfold build.
  apply NoDup_flat_map_keyed with (key := fun pl : position => fst (fst pl)).
  - apply enumerate_NoDup.
  - intros [bi b] _. apply indexBook_places.
  - intros [bi b] p _ H. apply indexBook_In in H.
    destruct H as [_ (si & pi & ->)]. reflexivity.
Qed.

Lemma NoDup_map_filter (A B : Type) (h : A -> B) (keep : A -> bool) (l : list A) :
  NoDup (map h l) -> NoDup (map h (filter keep l)).
Proof.
  induction l as [|x l IH]; simpl; intros N; [constructor|].
  apply NoDup_cons_iff in N. destruct N as [Nx Nl].
  destruct (keep x); simpl; [|now apply IH].
  constructor; [|now apply IH].
  intros H. apply Nx. apply in_map_iff in H. destruct H as (y & E & Hy).
  apply filter_In in Hy. apply in_map_iff. exists y. tauto.
Qed.

Lemma candidates_paragraphs (index : Index) (queryTokens : list token)
      (options : Qa.FindOptions) :
  map paragraph (candidates idf lengthNorm index queryTokens options)
  = filter (fun p => inScope options p && matches queryTokens p) index.
Proof.
  unfold candidates. rewrite map_map. simpl. apply map_id.
Qed.

Lemma candidates_places (index : Index) (queryTokens : list token)
      (options : Qa.FindOptions) :
  NoDup (map place index) ->
  NoDup (map (fun c => place (paragraph c))
             (candidates idf lengthNorm index queryTokens options)).
Proof.
  intros N. rewrite <- (map_map paragraph place), candidates_paragraphs.
  now apply NoDup_map_filter.
Qed.

Lemma candidates_In (index : Index) (queryTokens : list token)
      (options : Qa.FindOptions) (c : AnswerCandidate) :
  In c (candidates idf lengthNorm index queryTokens options) ->
  In (paragraph c) index
  /\ inScope options (paragraph c) = true
  /\ matches queryTokens (paragraph c) = true
  /\ relevance c = score idf lengthNorm index queryTokens (paragraph c).
Proof.
  unfold candidates. intros H. apply in_map_iff in H.
  destruct H as (p & <- & H). apply filter_In in H. destruct H as [H K].
  apply andb_true_iff in K. simpl. tauto.
Qed.

Lemma search_returns (index : Index) (queryTokens : list token)
      (options : Qa.FindOptions) :
  Qa.scope options = Qa.library_scope \/ Qa.bookId options <> None ->
  search idf lengthNorm index queryTokens options
  = Value (rank (candidates idf lengthNorm index queryTokens options)).
Proof.
  unfold search. destruct (Qa.scope options), (Qa.bookId options); intros [H|H];
    congruence.
Qed.

(** C5. [search] is a function of the index, the query tokens and the
    scope, and nothing else; whenever the scope is well formed it returns
    the candidates in the one order the specification allows: better score
    first, equal scores by book insertion order, then section order, then
    paragraph order.  Any arrangement of the same candidates that respects
    this order is the list [search] returns, so repeated calls, and any
    traversal order of the index, give identical lists. *)
Theorem search_ranking_determined
        (corpus : list Book) (queryTokens : list token) (options : Qa.FindOptions) :
  Qa.scope options = Qa.library_scope \/ Qa.bookId options <> None ->
  exists ranked,
    search idf lengthNorm (build stopWords corpus) queryTokens options = Value ranked
    /\ Permutation ranked
         (candidates idf lengthNorm (build stopWords corpus) queryTokens options)
    /\ StronglySorted ranksBefore ranked
    /\ (forall again,
           search idf lengthNorm (build stopWords corpus) queryTokens options
           = Value again ->
           again = ranked)
    /\ (forall other,
           Permutation other ranked ->
           StronglySorted ranksBefore other ->
           other = ranked).
Proof.
  intros H. eexists. split; [now apply search_returns|].
  assert (S : StronglySorted ranksBefore
                (rank (candidates idf lengthNorm (build stopWords corpus)
                         queryTokens options))).
  { apply ordered_ranksBefore; [|apply rank_ordered].
    apply (Permutation_NoDup
             (l := map (fun c => place (paragraph c))
                       (candidates idf lengthNorm (build stopWords corpus)
                          queryTokens options))).
    - apply Permutation_map. symmetry. apply rank_perm.
    - apply candidates_places. apply build_places. }
  split; [apply rank_perm|]. split; [exact S|]. split.
  - intros again E. rewrite (search_returns _ _ _ H) in E. now inversion E.
  - intros other P S'. now apply ranking_unique.
Qed.

Variable threshold : Q.
Variable maxSupporting : nat.
Variable excerpt : jsstring -> jsstring.

(** The two ways the engine has no answer for a well-formed scope: a query
    without tokens, and candidates that all stay below the threshold. *)
Lemma candidates_without_tokens (index : Index) (options : Qa.FindOptions) :
  candidates idf lengthNorm index [] options = [].
Proof.
  unfold candidates, matches. simpl.
  induction index as [|p index IH]; simpl; [reflexivity|].
  now rewrite andb_false_r.
Qed.

Lemma findAnswer_without_tokens (index : Index) (question : jsstring)
      (options : Qa.FindOptions) :
  Qa.scope options = Qa.library_scope \/ Qa.bookId options <> None ->
  normalize stopWords question = [] ->
  findAnswer stopWords idf lengthNorm threshold maxSupporting excerpt
    index question options = Value None.
Proof.
  intros Hs Hq. unfold findAnswer.
  rewrite (search_returns _ _ _ Hs), Hq, candidates_without_tokens. reflexivity.
Qed.

Lemma findAnswer_below_threshold (index : Index) (question : jsstring)
      (options : Qa.FindOptions) :
  Qa.scope options = Qa.library_scope \/ Qa.bookId options <> None ->
  (forall c, In c (candidates idf lengthNorm index (normalize stopWords question) options) ->
             (relevance c < threshold)%Q) ->
  findAnswer stopWords idf lengthNorm threshold maxSupporting excerpt
    index question options = Value None.
Proof.
  intros Hs Hlow. unfold findAnswer. rewrite (search_returns _ _ _ Hs).
  destruct (rank _) as [|top rest] eqn:E; [reflexivity|].
  assert (Htop : In top (candidates idf lengthNorm index
                           (normalize stopWords question) options)).
  { apply (Permutation_in _ (rank_perm _)). rewrite E. now left. }
  apply Hlow in Htop. unfold compose.
  destruct (Qle_bool threshold (relevance top)) eqn:K; [|reflexivity].
  apply Qle_bool_iff in K. lra.
Qed.

(** C4. With scope [book] and a book id, every candidate [search] returns
    is a paragraph of the index whose book has that id, and no paragraph of
    a book with another id is among them.  If no book of the corpus has the
    id, there are no candidates, [findAnswer] has no answer whatever the
    question, and a request served by this engine is answered with
    [found = false]. *)
Theorem book_scope_only_that_book
        (corpus : list Book) (queryTokens : list token) (b : jsstring) :
  let index := build stopWords corpus in
  let options := {| Qa.scope := Qa.book_scope; Qa.bookId := Some b |} in
  exists ranked,
    search idf lengthNorm index queryTokens options = Value ranked
    /\ Forall (fun c => In (paragraph c) index /\ id (book (paragraph c)) = b) ranked
    /\ (forall p, In p index -> id (book p) <> b -> ~ In p (map paragraph ranked))
    /\ (~ In b (map id corpus) ->
        ranked = []
        /\ (forall question,
               findAnswer stopWords idf lengthNorm threshold maxSupporting excerpt
                 index question options = Value None)
        /\ (forall (number : Type) (numberToString : number -> jsstring)
                   (body : json number) (env : Collaborators)
                   (m : jsstring) (t : Translation.ToEnglish) (localized : jsstring),
               ChatRoute.findAnswer env
               = findAnswer stopWords idf lengthNorm threshold maxSupporting excerpt index ->
               scope_of body = Qa.book_scope ->
               bookId_of body = Some b ->
               message_of numberToString body = Value m ->
               m <> [] ->
               ChatRoute.translateToEnglish env m = Value t ->
               ChatRoute.translateFromEnglish env fallbackAnswer (targetLanguage_of body)
               = Value localized ->
               exists calls p,
                 POST numberToString body env
                 = (calls, Value {| status := 200; data := Chat p |})
                 /\ found p = false
                 /\ source p = None)).
Proof.
  intros index options.
  assert (R : forall q, search idf lengthNorm index q options
                        = Value (rank (candidates idf lengthNorm index q options)))
    by (intros q; apply search_returns; right; discriminate).
  assert (A : forall q c, In c (rank (candidates idf lengthNorm index q options)) ->
                          In (paragraph c) index /\ id (book (paragraph c)) = b).
  { intros q c H. apply (Permutation_in _ (rank_perm _)) in H.
    apply candidates_In in H. destruct H as (Hin & Hs & _). split; [exact Hin|].
    unfold inScope, options in Hs. simpl in Hs. now apply str_eqb_eq. }
  assert (E : ~ In b (map id corpus) ->
              forall q, rank (candidates idf lengthNorm index q options) = []).
  { intros Hb q.
    destruct (rank (candidates idf lengthNorm index q options)) as [|c l] eqn:K;
      [reflexivity|].
    destruct (A q c) as [Hin Hid]; [rewrite K; now left|].
    destruct Hb. rewrite <- Hid. apply in_map. now apply build_In in Hin. }
  eexists. split; [apply R|]. split; [|split].
  - apply Forall_forall. apply A.
  - intros p Hp Hid H. apply in_map_iff in H. destruct H as (c & <- & Hc).
    now destruct (A _ _ Hc).
  - intros Hb. split; [now apply E|]. split.
    + intros question. unfold findAnswer. now rewrite R, E.
    + intros number numberToString body env m t localized Henv Hs Hbook Hm Hne Hto Hfrom.
      assert (Hfa : ChatRoute.findAnswer env
                      (if truthy (Translation.text t) then Translation.text t else m)
                      (options_of body) = Value None).
      { rewrite Henv. unfold options_of. rewrite Hs, Hbook.
        unfold findAnswer. fold options. now rewrite R, E. }
      rewrite (POST_returns numberToString body env (a := None) Hm Hne Hto Hfa Hfrom).
      eexists. eexists. split; [reflexivity|]. simpl. auto.
Qed.

(** C7. Translating from English to English is the identity, whatever the
    text and whatever the translation backend does; a request served by this
    translator with target [en] therefore gets [answer] equal to
    [baseAnswer]. *)
Theorem translateFromEnglish_en_identity
        (backend : jsstring -> jsstring -> completion jsstring) :
  (forall x, Engine.translateFromEnglish backend x (lit "en") = Value x)
  /\ (forall (number : Type) (numberToString : number -> jsstring)
             (body : json number) (env : Collaborators)
             (m : jsstring) (t : Translation.ToEnglish) (a : option Qa.Answer),
         ChatRoute.translateFromEnglish env = Engine.translateFromEnglish backend ->
         targetLanguage_of body = lit "en" ->
         message_of numberToString body = Value m ->
         m <> [] ->
         ChatRoute.translateToEnglish env m = Value t ->
         ChatRoute.findAnswer env
           (if truthy (Translation.text t) then Translation.text t else m)
           (options_of body) = Value a ->
         exists calls p,
           POST numberToString body env
           = (calls, Value {| status := 200; data := Chat p |})
           /\ targetLanguage p = lit "en"
           /\ answer p = baseAnswer p).
Proof.
  assert (I : forall x, Engine.translateFromEnglish backend x (lit "en") = Value x).
  { intros x. unfold Engine.translateFromEnglish.
    now rewrite (proj2 (str_eqb_eq (lit "en") (lit "en")) eq_refl). }
  split; [exact I|].
  intros number numberToString body env m t a Henv Hl Hm Hne Hto Hfa.
  assert (Hfrom : ChatRoute.translateFromEnglish env
                    (match a with Some x => composed x | None => fallbackAnswer end)
                    (targetLanguage_of body)
                  = Value (match a with Some x => composed x | None => fallbackAnswer end))
    by (rewrite Henv, Hl; apply I).
  rewrite (POST_returns numberToString body env Hm Hne Hto Hfa Hfrom).
  eexists. eexists. split; [reflexivity|]. simpl. now rewrite Hl.
Qed.

(** C1. Scope [book] without a book id is rejected by the engine before any
    candidate is looked at: [search] and [findAnswer] fail with
    [InvalidScope] whatever the index and the query.  The handler passes
    scope [book] and the missing id on unchanged, so a request with scope
    [book], no book id and a non-empty message fails at its call to
    [findAnswer]: nothing is answered from library scope and nothing is
    translated back.  The only response such a request can get is the
    rejection of an empty message. *)
Theorem book_scope_requires_bookId :
  let options := {| Qa.scope := Qa.book_scope; Qa.bookId := None |} in
  (forall index queryTokens,
      search idf lengthNorm index queryTokens options
      = Throw (Failure (lit "InvalidScope")))
  /\ (forall index question,
         findAnswer stopWords idf lengthNorm threshold maxSupporting excerpt
           index question options
         = Throw (Failure (lit "InvalidScope")))
  /\ (forall (number : Type) (numberToString : number -> jsstring)
             (body : json number) (env : Collaborators) (index : Index)
             (m : jsstring) (t : Translation.ToEnglish),
         ChatRoute.findAnswer env
         = findAnswer stopWords idf lengthNorm threshold maxSupporting excerpt index ->
         scope_of body = Qa.book_scope ->
         bookId_of body = None ->
         message_of numberToString body = Value m ->
         m <> [] ->
         ChatRoute.translateToEnglish env m = Value t ->
         POST numberToString body env
         = ([call_translateToEnglish m;
             call_findAnswer
               (if truthy (Translation.text t) then Translation.text t else m)
               options],
            Throw (Failure (lit "InvalidScope"))))
  /\ (forall (number : Type) (numberToString : number -> jsstring)
             (body : json number) (env : Collaborators) (index : Index)
             (r : Response),
         ChatRoute.findAnswer env
         = findAnswer stopWords idf lengthNorm threshold maxSupporting excerpt index ->
         scope_of body = Qa.book_scope ->
         bookId_of body = None ->
         snd (POST numberToString body env) = Value r ->
         message_of numberToString body = Value []
         /\ r = {| status := 400;
                   data := ErrorPayload (lit "Message must not be empty.") |}).
Proof.
  intros options. split; [reflexivity|]. split; [reflexivity|]. split.
  - intros number numberToString body env index m t Henv Hs Hb Hm Hne Hto.
    apply truthy_nonempty in Hne.
    unfold POST, bind, lift, invoke, ret.
    rewrite Hm, Hne. simpl. rewrite Hto, Henv, Hs, Hb. reflexivity.
  - intros number numberToString body env index r Henv Hs Hb H.
    destruct (POST_response numberToString body env H)
      as [E|(m & t & a & localized & E)]; [exact E|].
    cbv zeta in E. destruct E as (_ & _ & _ & Hfa & _).
    rewrite Henv in Hfa. unfold options_of in Hfa. rewrite Hs, Hb in Hfa.
    discriminate Hfa.
Qed.

End EngineFacts.

(** ** The sample corpus *)

Import Sample.

Lemma empty_message_rejected_witness :
  POST numberToString blank collaborators
  = ([], Value {| status := 400;
                  data := ErrorPayload (lit "Message must not be empty.") |}).
Proof.
  apply (proj1 (empty_message_rejected numberToString blank collaborators)).
  reflexivity.
Defined.

Lemma request_defaults_witness :
  scope_of french = Qa.library_scope /\ targetLanguage_of carbon = lit "en".
Proof.
  split.
  - apply (proj1 (request_defaults numberToString french)).
    vm_compute. discriminate.
  - apply (proj1 (proj2 (request_defaults numberToString carbon))).
    intros s. vm_compute. discriminate.
Defined.

Lemma empty_translation_falls_back_witness :
  exists rest,
    fst (POST numberToString carbon untranslated)
    = call_translateToEnglish carbonQuestion
        :: call_findAnswer carbonQuestion (options_of carbon) :: rest.
Proof.
  apply (proj1 (empty_translation_falls_back numberToString carbon untranslated
                  (m := carbonQuestion)
                  (t := {| Translation.text := [];
                           Translation.detected := lit "und" |})
                  eq_refl ltac:(discriminate) eq_refl eq_refl)).
Defined.

Lemma no_answer_is_fallback_witness :
  exists calls p,
    POST numberToString opera collaborators
    = (calls, Value {| status := 200; data := Chat p |})
    /\ found p = false
    /\ baseAnswer p = fallbackAnswer
    /\ source p = None
    /\ answer p = fallbackAnswer.
Proof.
  apply (no_answer_is_fallback numberToString opera collaborators
           (m := lit "opera singing techniques")
           (t := {| Translation.text := lit "opera singing techniques";
                    Translation.detected := lit "en" |})).
  - reflexivity.
  - discriminate.
  - reflexivity.
  - vm_compute. reflexivity.
  - reflexivity.
Defined.

Lemma response_fields_consistent_witness :
  (found carbonPayload = true <-> source carbonPayload <> None)
  /\ (found carbonPayload = true ->
      exists a s,
        (exists q, In (call_findAnswer q (options_of carbon))
                      (fst (POST numberToString carbon collaborators))
                   /\ ChatRoute.findAnswer collaborators q (options_of carbon)
                      = Value (Some a))
        /\ source carbonPayload = Some s
        /\ source_id s = Qa.id (Qa.book a)
        /\ source_title s = Qa.title (Qa.book a)
        /\ source_section s = Qa.section a
        /\ exists between after,
            baseAnswer carbonPayload =
              Qa.answer a ++ between
              ++ (lit "Source: " ++ source_title s ++ [32; em_dash; 32]%N
                  ++ source_section s)
              ++ after).
Proof.
  apply (response_fields_consistent numberToString carbon collaborators
           (r := {| status := 200; data := Chat carbonPayload |})).
  - vm_compute. reflexivity.
  - reflexivity.
Defined.

Lemma book_scope_requires_bookId_witness :
  POST numberToString bookless collaborators
  = ([call_translateToEnglish (lit "hi");
      call_findAnswer (lit "hi") {| Qa.scope := Qa.book_scope; Qa.bookId := None |}],
     Throw (Failure (lit "InvalidScope"))).
Proof.
  apply (proj1 (proj2 (proj2 (book_scope_requires_bookId
                                stopWords idf lengthNorm threshold 2 excerpt)))
           Z numberToString bookless collaborators index (lit "hi")
           {| Translation.text := lit "hi"; Translation.detected := lit "en" |}).
  - reflexivity.
  - reflexivity.
  - reflexivity.
  - reflexivity.
  - discriminate.
  - reflexivity.
Defined.

Lemma book_scope_only_that_book_witness :
  exists ranked,
    search index [lit "carbon"; lit "markets"]
      {| Qa.scope := Qa.book_scope; Qa.bookId := Some (lit "no-such-book") |}
    = Value ranked
    /\ ranked = []
    /\ (exists calls p,
           POST numberToString elsewhere collaborators
           = (calls, Value {| status := 200; data := Chat p |})
           /\ found p = false
           /\ source p = None).
Proof.
  destruct (book_scope_only_that_book
              stopWords idf lengthNorm threshold 2 excerpt
              corpus [lit "carbon"; lit "markets"] (lit "no-such-book"))
    as (ranked & Hsearch & _ & _ & Habsent).
  assert (Hb : ~ In (lit "no-such-book") (map id corpus)).
  { vm_compute. intuition discriminate. }
  destruct (Habsent Hb) as (Hnil & _ & Hpost).
  exists ranked. split; [exact Hsearch|]. split; [exact Hnil|].
  apply (Hpost Z numberToString elsewhere collaborators (lit "carbon markets")
           {| Translation.text := lit "carbon markets";
              Translation.detected := lit "en" |}
           fallbackAnswer).
  - reflexivity.
  - reflexivity.
  - reflexivity.
  - reflexivity.
  - discriminate.
  - reflexivity.
  - reflexivity.
Defined.

Lemma search_ranking_determined_witness :
  exists ranked,
    search index [lit "permits"; lit "emissions"]
      {| Qa.scope := Qa.library_scope; Qa.bookId := None |}
    = Value ranked
    /\ map (fun c => place (paragraph c)) ranked
       = [(0, 0, 0); (1, 0, 0); (1, 0, 1)]%nat
    /\ StronglySorted ranksBefore ranked.
Proof.
  destruct (search_ranking_determined
              stopWords idf lengthNorm corpus [lit "permits"; lit "emissions"]
              {| Qa.scope := Qa.library_scope; Qa.bookId := None |}
              (or_introl eq_refl))
    as (ranked & Hsearch & _ & Hsorted & _).
  exists ranked. split; [exact Hsearch|]. split; [|exact Hsorted].
  assert (E : Value ranked
              = search index [lit "permits"; lit "emissions"]
                  {| Qa.scope := Qa.library_scope; Qa.bookId := None |})
    by (symmetry; exact Hsearch).
  vm_compute in E. inversion E. reflexivity.
Defined.

(** The translation backend is down and the request asks for French: the
    call to [translateFromEnglish] fails and takes the request with it. *)
Lemma translation_failure_is_fatal :
  ChatRoute.translateFromEnglish collaborators (composed carbonAnswer) (lit "fr")
  = Throw (Failure (lit "translation backend unavailable"))
  /\ snd (POST numberToString french collaborators)
     = Throw (Failure (lit "translation backend unavailable"))
  /\ ~ (exists r p,
           snd (POST numberToString french collaborators) = Value r
           /\ data r = Chat p
           /\ targetLanguage p = lit "fr"
           /\ answer p = baseAnswer p).
Proof.
  split; [reflexivity|]. split; [vm_compute; reflexivity|].
  intros (r & p & H & _). vm_compute in H. discriminate.
Qed.

Lemma translation_failure_propagates_witness :
  snd (POST numberToString french collaborators)
  = Throw (Failure (lit "translation backend unavailable")).
Proof.
  destruct (translation_failure_propagates numberToString french collaborators
              (m := carbonQuestion) eq_refl ltac:(discriminate))
    as (_ & _ & K).
  assert (Hfa : ChatRoute.findAnswer collaborators carbonQuestion (options_of french)
                = Value (Some carbonAnswer)) by (vm_compute; reflexivity).
  destruct (K {| Translation.text := carbonQuestion; Translation.detected := lit "en" |}
              (Some carbonAnswer) eq_refl Hfa) as (T & _ & _).
  apply T. reflexivity.
Defined.

Lemma translateFromEnglish_en_identity_witness :
  exists calls p,
    POST numberToString carbon collaborators
    = (calls, Value {| status := 200; data := Chat p |})
    /\ targetLanguage p = lit "en"
    /\ answer p = baseAnswer p.
Proof.
  apply (proj2 (translateFromEnglish_en_identity unavailable)
           Z numberToString carbon collaborators carbonQuestion
           {| Translation.text := carbonQuestion; Translation.detected := lit "en" |}
           (Some carbonAnswer)).
  - reflexivity.
  - reflexivity.
  - reflexivity.
  - discriminate.
  - reflexivity.
  - vm_compute. reflexivity.
Defined.

(** ** Conversions at the edge of the handler, evaluated *)

Example message_of_padded :
  message_of numberToString carbon = Value carbonQuestion.
Proof. reflexivity. Qed.

Example message_of_missing :
  message_of numberToString (JObj [field "scope" "book"]) = Value [].
Proof. reflexivity. Qed.

Example message_of_null_body :
  message_of numberToString JNull = Value [].
Proof. reflexivity. Qed.

Example message_of_no_break_space :
  message_of numberToString (JObj [(lit "message", JStr [160; 32; 8203; 32; 12288]%N)])
  = Value [8203%N].
Proof. reflexivity. Qed.

Example message_of_empty_array :
  message_of numberToString (JObj [(lit "message", JArr [JArr []; JNull])])
  = Value (lit ",").
Proof. reflexivity. Qed.

Example message_of_number :
  message_of numberToString (JObj [(lit "message", JNum 42%Z)]) = Value (lit "42").
Proof. reflexivity. Qed.

Example message_of_object_with_toString :
  message_of numberToString
    (JObj [(lit "message", JObj [(lit "toString", JBool true)])])
  = Throw TypeError.
Proof. reflexivity. Qed.

Example scope_of_other_string :
  scope_of (JObj [field "scope" "Book"] : body) = Qa.library_scope.
Proof. reflexivity. Qed.

Example bookId_of_number :
  bookId_of (JObj [(lit "bookId", JNum 7%Z)]) = None.
Proof. reflexivity. Qed.

Example carbon_markets_found :
  snd (POST numberToString carbon collaborators)
  = Value {| status := 200; data := Chat carbonPayload |}.
Proof. vm_compute. reflexivity. Qed.

Example tie_broken_by_place :
  match search index [lit "permits"; lit "emissions"]
          {| Qa.scope := Qa.library_scope; Qa.bookId := None |} with
  | Value ranked => map (fun c => (place (paragraph c), relevance c)) ranked
  | _ => []
  end
  = [((0, 0, 0)%nat, 59 # 24); ((1, 0, 0)%nat, 59 # 24); ((1, 0, 1)%nat, 27 # 24)].
Proof. vm_compute. reflexivity. Qed.

From Stdlib Require Import Btauto.

(** ** More on the chat route *)

Section RouteProtocol.

Variable number : Type.
Variable numberToString : number -> jsstring.


(** The complete run of a request, case by case. *)
Lemma POST_runs (body : json number) (env : Collaborators) :
  let run := POST numberToString body env in
  (fst run = []
   /\ (stopped (message_of numberToString body) (snd run)
       \/ (message_of numberToString body = Value []
           /\ snd run = Value {| status := 400;
                                 data := ErrorPayload (lit "Message must not be empty.") |})))
  \/ exists m,
      message_of numberToString body = Value m
      /\ m <> []
      /\ ((fst run = [call_translateToEnglish m]
           /\ stopped (ChatRoute.translateToEnglish env m) (snd run))
          \/ exists t,
              ChatRoute.translateToEnglish env m = Value t
              /\ let question :=
                   if truthy (Translation.text t) then Translation.text t else m in
                 (fst run = [call_translateToEnglish m;
                             call_findAnswer question (options_of body)]
                  /\ stopped (ChatRoute.findAnswer env question (options_of body))
                       (snd run))
                 \/ exists a,
                     ChatRoute.findAnswer env question (options_of body) = Value a
                     /\ let base := match a with
                                    | Some x => composed x
                                    | None => fallbackAnswer
                                    end in
                        fst run = [call_translateToEnglish m;
                                   call_findAnswer question (options_of body);
                                   call_translateFromEnglish base (targetLanguage_of body)]
                        /\ (stopped (ChatRoute.translateFromEnglish env base
                                       (targetLanguage_of body)) (snd run)
                            \/ exists localized,
                                ChatRoute.translateFromEnglish env base
                                  (targetLanguage_of body) = Value localized
                                /\ exists p,
                                    snd run = Value {| status := 200; data := Chat p |}
                                    /\ answer p = localized
                                    /\ baseAnswer p = base
                                    /\ targetLanguage p = targetLanguage_of body
                                    /\ detectedLanguage p = Translation.detected t
                                    /\ found p = match a with
                                                 | Some _ => true
                                                 | None => false
                                                 end)).
Proof.
  unfold stopped. cbv zeta.
  unfold POST, bind, lift, invoke, ret.
  destruct (message_of numberToString body) as [m| e|] eqn:Hm; simpl.
  2: { left. split; [reflexivity|]. left. left. now exists e. }
  2: { left. split; [reflexivity|]. left. right. now split. }
  destruct (truthy m) eqn:Ht; simpl.
  2: { left. split; [reflexivity|]. right. destruct m; [|discriminate]. now split. }
  right. exists m. split; [reflexivity|]. split; [now apply truthy_nonempty|].
  destruct (ChatRoute.translateToEnglish env m) as [t| e|] eqn:Hto; simpl.
  2: { left. split; [reflexivity|]. left. now exists e. }
  2: { left. split; [reflexivity|]. right. now split. }
  right. exists t. split; [reflexivity|]. fold (options_of body).
  destruct (ChatRoute.findAnswer env _ (options_of body)) as [a| e|] eqn:Hfa; simpl.
  2: { left. split; [reflexivity|]. left. now exists e. }
  2: { left. split; [reflexivity|]. right. now split. }
  right. exists a. split; [reflexivity|].
  destruct (ChatRoute.translateFromEnglish env _ (targetLanguage_of body))
    as [localized| e|] eqn:Hfrom; simpl.
  2: { split; [reflexivity|]. left. left. now exists e. }
  2: { split; [reflexivity|]. left. right. now split. }
  split; [reflexivity|]. right. exists localized. split; [reflexivity|].
  eexists. split; [reflexivity|]. simpl. repeat split; reflexivity.
Qed.

End RouteProtocol.

Lemma trimStart_blank (s : jsstring) :
  trimStart s = [] <-> Forall (fun c => isWhiteSpace c = true) s.
Proof.
  induction s as [|c s IH]; simpl.
  - split; [constructor|reflexivity].
  - destruct (isWhiteSpace c) eqn:E.
    + rewrite IH. split; [now constructor|]. intros H. now inversion H.
    + split; [discriminate|]. intros H. inversion H. congruence.
Qed.

Lemma trim_blank (s : jsstring) :
  trim s = [] <-> Forall (fun c => isWhiteSpace c = true) s.
Proof.
  unfold trim, trimEnd. split.
  - intros H.
    assert (K : trimStart (rev (trimStart s)) = []).
    { destruct (trimStart (rev (trimStart s))); [reflexivity|].
      apply (f_equal (@List.length _)) in H. rewrite length_rev in H. discriminate. }
    apply trimStart_blank in K. apply Forall_rev in K. rewrite rev_involutive in K.
    apply trimStart_blank.
    pose proof (trimStart_trimmed s) as T.
    destruct (trimStart s) as [|c t]; [reflexivity|].
    simpl in T. inversion K. congruence.
  - intros H. apply trimStart_blank in H. rewrite H. reflexivity.
Qed.

Section RouteExtras.

Variable number : Type.
Variable numberToString : number -> jsstring.

(** X1. The handler makes at most three calls, in the order
    [translateToEnglish], [findAnswer], [translateFromEnglish], each at most
    once.  Retrieval is called only after the translator returned, with the
    translated text, or with the message when that text is empty; the
    translation back is called only after retrieval returned, with the text
    composed from its result. *)
Theorem calls_in_order (body : json number) (env : Collaborators) :
  let calls := fst (POST numberToString body env) in
  (exists m q base rest,
      calls ++ rest
      = [call_translateToEnglish m;
         call_findAnswer q (options_of body);
         call_translateFromEnglish base (targetLanguage_of body)])
  /\ (forall q o,
         In (call_findAnswer q o) calls ->
         exists m t,
           In (call_translateToEnglish m) calls
           /\ ChatRoute.translateToEnglish env m = Value t
           /\ q = if truthy (Translation.text t) then Translation.text t else m)
  /\ (forall b l,
         In (call_translateFromEnglish b l) calls ->
         exists q a,
           In (call_findAnswer q (options_of body)) calls
           /\ ChatRoute.findAnswer env q (options_of body) = Value a
           /\ b = match a with
                  | Some x => composed x
                  | None => fallbackAnswer
                  end).
Proof.
  cbv zeta.
  destruct (POST_runs numberToString body env)
    as [[E _]|(m & Hm & Hne & [[E _]|(t & Hto & [[E _]|(a & Hfa & E & _)])])];
    cbv zeta in *; rewrite E; simpl.
  - split; [exists [], [], []; eexists; reflexivity|]. split; intros; contradiction.
  - split; [exists m, [], []; eexists; reflexivity|].
    split; intros ? ? [H|[]]; discriminate.
  - split; [exists m; eexists; exists []; eexists; reflexivity|]. split.
    + intros q o [H|[H|[]]]; [discriminate|]. inversion H; subst.
      exists m, t. auto.
    + intros ? ? [H|[H|[]]]; discriminate.
  - split; [exists m; eexists; eexists; exists []; reflexivity|]. split.
    + intros q o [H|[H|[H|[]]]]; try discriminate. inversion H; subst.
      exists m, t. auto.
    + intros b l [H|[H|[H|[]]]]; try discriminate. inversion H; subst.
      eexists _, a. split; [right; left; reflexivity|]. auto.
Qed.


(** X3. The handler answers with status 200 or 400 and nothing else: 400,
    with the fixed error text and without any call, exactly when the message
    is empty after trimming; 200, with a chat payload, after exactly three
    calls. *)
Theorem only_200_or_400 (body : json number) (env : Collaborators) (r : Response) :
  snd (POST numberToString body env) = Value r ->
  (message_of numberToString body = Value []
   /\ r = {| status := 400; data := ErrorPayload (lit "Message must not be empty.") |}
   /\ fst (POST numberToString body env) = [])
  \/ (exists m p,
         message_of numberToString body = Value m
         /\ m <> []
         /\ r = {| status := 200; data := Chat p |}
         /\ List.length (fst (POST numberToString body env)) = 3%nat).
Proof.
  intros K. unfold stopped in *.
  destruct (POST_runs numberToString body env)
    as [[E H]|(m & Hm & Hne & [[E H]|(t & Hto & [[E H]|(a & Hfa & E & H)])])];
    cbv zeta in *.
  - left. destruct H as [[[e' [H1 H2]]|[H1 H2]]|[H1 H2]]; try congruence.
    split; [exact H1|]. split; [congruence|exact E].
  - destruct H as [[e' [H1 H2]]|[H1 H2]]; congruence.
  - destruct H as [[e' [H1 H2]]|[H1 H2]]; congruence.
  - destruct H as [[[e' [H1 H2]]|[H1 H2]]|(localized & H1 & p & H2 & _)];
      try congruence.
    right. exists m, p. split; [exact Hm|]. split; [exact Hne|].
    split; [congruence|]. now rewrite E.
Qed.


(** X5. A body that is not an object, or has no [message], or a [null]
    message, or a message string of white space only, is answered with the
    400 rejection and no call; a message string with any other character is
    not rejected. *)
Theorem missing_message_rejected (body : json number) (env : Collaborators) :
  let rejected :=
    POST numberToString body env
    = ([], Value {| status := 400;
                    data := ErrorPayload (lit "Message must not be empty.") |}) in
  ((forall fields, body <> JObj fields) -> rejected)
  /\ (get body (lit "message") = None -> rejected)
  /\ (get body (lit "message") = Some JNull -> rejected)
  /\ (forall s, get body (lit "message") = Some (JStr s) ->
                (rejected <-> Forall (fun c => isWhiteSpace c = true) s)).
Proof.
  cbv zeta.
  assert (R : forall s,
             nullish (get body (lit "message")) (JStr []) = JStr s ->
             (POST numberToString body env
              = ([], Value {| status := 400;
                              data := ErrorPayload (lit "Message must not be empty.") |})
              <-> trim s = [])).
  { intros s E. unfold POST, bind, lift, ret, message_of. rewrite E. simpl.
    destruct (trim s) eqn:T; simpl.
    - split; reflexivity.
    - split; [|discriminate].
      destruct (ChatRoute.translateToEnglish env _); simpl;
        [destruct (ChatRoute.findAnswer env _ _); simpl;
         [destruct (ChatRoute.translateFromEnglish env _ _); simpl|..]|..];
        discriminate. }
  split; [|split; [|split]].
  - intros H. apply (R []); [|reflexivity].
    destruct body; try reflexivity. now destruct (H fields).
  - intros H. apply (R []); [|reflexivity]. now rewrite H.
  - intros H. apply (R []); [|reflexivity]. now rewrite H.
  - intros s H. rewrite <- trim_blank. apply R. now rewrite H.
Qed.

(** X6. In a chat response, [answer] is exactly what [translateFromEnglish]
    returned for the response's own [baseAnswer] and [targetLanguage], that
    call is in the log, [baseAnswer] is never empty, and [detectedLanguage]
    is what [translateToEnglish] reported for the trimmed message. *)
Theorem response_repeats_translator
        (body : json number) (env : Collaborators) (r : Response) (p : ChatPayload) :
  snd (POST numberToString body env) = Value r ->
  data r = Chat p ->
  In (call_translateFromEnglish (baseAnswer p) (targetLanguage p))
     (fst (POST numberToString body env))
  /\ ChatRoute.translateFromEnglish env (baseAnswer p) (targetLanguage p)
     = Value (answer p)
  /\ baseAnswer p <> []
  /\ exists m t,
      message_of numberToString body = Value m
      /\ ChatRoute.translateToEnglish env m = Value t
      /\ detectedLanguage p = Translation.detected t.
Proof.
  intros K D. unfold stopped in *.
  destruct (POST_runs numberToString body env)
    as [[E H]|(m & Hm & Hne & [[E H]|(t & Hto & [[E H]|(a & Hfa & E & H)])])];
    cbv zeta in *.
  - destruct H as [[[e' [H1 H2]]|[H1 H2]]|[H1 H2]]; try congruence.
    rewrite H2 in K. inversion K; subst r. discriminate D.
  - destruct H as [[e' [H1 H2]]|[H1 H2]]; congruence.
  - destruct H as [[e' [H1 H2]]|[H1 H2]]; congruence.
  - destruct H as [[[e' [H1 H2]]|[H1 H2]]|(localized & H1 & p' & H2 & Ha & Hb & Hl & Hd & _)];
      try congruence.
    rewrite H2 in K. inversion K; subst r. simpl in D. inversion D; subst p'.
    rewrite E, Hb, Hl, Ha. split; [simpl; auto|]. split; [exact H1|]. split.
    + destruct a as [x|]; [|discriminate].
      destruct (composed_contains x) as (between & after & ->).
      destruct (Qa.answer x), between; discriminate.
    + exists m, t. auto.
Qed.

(** X7. The composed answer is the answer text, the source line and the
    related context, in this order, separated by one empty line; an empty
    answer text leaves no empty line in front of the source line, and without
    supporting excerpts nothing follows the source line. *)
Theorem composed_layout (a : Qa.Answer) :
  composed a
  = (match Qa.answer a with
     | [] => []
     | _ :: _ => Qa.answer a ++ [10; 10]%N
     end)
    ++ (lit "Source: " ++ Qa.title (Qa.book a) ++ [32; em_dash; 32]%N ++ Qa.section a)
    ++ (match Qa.supporting a with
        | [] => []
        | _ :: _ =>
            [10; 10]%N ++ lit "Related context: "
            ++ join (lit " / ") (Qa.supporting a)
        end).
Proof.
  unfold composed.
  destruct (Qa.answer a) as [|c s], (Qa.supporting a) as [|x xs].
  - simpl. now rewrite app_nil_r.
  - reflexivity.
  - simpl. now rewrite !app_nil_r, <- !app_assoc.
  - cbn [filter truthy Nat.ltb Nat.leb List.length join app lit map
         list_ascii_of_string].
    rewrite <- !app_assoc. reflexivity.
Qed.

End RouteExtras.

(** ** The dashboard *)

Lemma arrayIncludes_In (items : list jsstring) (x : jsstring) :
  Dashboard.arrayIncludes items x = true <-> In x items.
Proof.
  unfold Dashboard.arrayIncludes. rewrite existsb_exists. split.
  - intros (y & Hy & E). apply str_eqb_eq in E. now subst.
  - intros H. exists x. split; [assumption|]. now apply str_eqb_eq.
Qed.

Lemma arrayIncludes_not_In (items : list jsstring) (x : jsstring) :
  Dashboard.arrayIncludes items x = false <-> ~ In x items.
Proof.
  rewrite <- arrayIncludes_In. destruct (Dashboard.arrayIncludes items x); split;
    congruence.
Qed.

Lemma str_eqb_refl (a : jsstring) : str_eqb a a = true.
Proof. now apply str_eqb_eq. Qed.

Lemma str_eqb_neq (a b : jsstring) : str_eqb a b = false <-> a <> b.
Proof.
  rewrite <- str_eqb_eq. destruct (str_eqb a b); split; congruence.
Qed.

Lemma filter_all (A : Type) (f : A -> bool) (l : list A) :
  (forall x, In x l -> f x = true) -> filter f l = l.
Proof.
  intros H. apply forallb_filter_id. now apply forallb_forall.
Qed.

Lemma filter_filter_and (A : Type) (f g : A -> bool) (l : list A) :
  filter g (filter f l) = filter (fun x => f x && g x) l.
Proof.
  induction l as [|x l IH]; simpl; [reflexivity|].
  destruct (f x); simpl; [|exact IH].
  destruct (g x); now rewrite IH.
Qed.

(** X8. Toggling a tag flips whether it is selected and changes nothing for
    any other tag; a selection without repetitions stays without
    repetitions. *)
Theorem handleTagToggle_flips (tag : jsstring) (prev : list jsstring) :
  (forall t,
      In t (Dashboard.handleTagToggle tag prev)
      <-> (t = tag /\ ~ In tag prev) \/ (t <> tag /\ In t prev))
  /\ (NoDup prev -> NoDup (Dashboard.handleTagToggle tag prev)).
Proof.
  unfold Dashboard.handleTagToggle.
  destruct (Dashboard.arrayIncludes prev tag) eqn:E.
  - apply arrayIncludes_In in E. split.
    + intros t. rewrite filter_In, negb_true_iff, str_eqb_neq. tauto.
    + apply NoDup_filter.
  - apply arrayIncludes_not_In in E. split.
    + intros t. rewrite in_app_iff. simpl.
      destruct (list_eq_dec N.eq_dec t tag) as [->|D]; [tauto|].
      split; [intros [H|[H|[]]]; [tauto|congruence]|tauto].
    + intros N. apply NoDup_app; [assumption|repeat constructor; auto|].
      intros a Ha [<-|[]]. contradiction.
Qed.

(** X9. Selecting a tag that was not selected and toggling it again gives
    back the very same selection; toggling a selected tag twice leaves the
    other tags in their order and moves the tag to the end. *)
Theorem handleTagToggle_twice (tag : jsstring) (prev : list jsstring) :
  (~ In tag prev ->
   Dashboard.handleTagToggle tag (Dashboard.handleTagToggle tag prev) = prev)
  /\ (In tag prev ->
      Dashboard.handleTagToggle tag (Dashboard.handleTagToggle tag prev)
      = filter (fun item => negb (str_eqb item tag)) prev ++ [tag]).
Proof.
  split.
  - intros H. unfold Dashboard.handleTagToggle at 2.
    rewrite (proj2 (arrayIncludes_not_In prev tag) H).
    unfold Dashboard.handleTagToggle.
    assert (E : Dashboard.arrayIncludes (prev ++ [tag]) tag = true)
      by (apply arrayIncludes_In, in_app_iff; simpl; auto).
    rewrite E, filter_app. simpl. rewrite str_eqb_refl. simpl.
    rewrite app_nil_r. apply filter_all.
    intros x Hx. apply negb_true_iff, str_eqb_neq. congruence.
  - intros H. unfold Dashboard.handleTagToggle at 2.
    rewrite (proj2 (arrayIncludes_In prev tag) H).
    unfold Dashboard.handleTagToggle.
    assert (E : Dashboard.arrayIncludes
                  (filter (fun item => negb (str_eqb item tag)) prev) tag = false).
    { apply arrayIncludes_not_In. rewrite filter_In, negb_true_iff, str_eqb_neq.
      tauto. }
    now rewrite E.
Qed.

Lemma startsWith_spec (s prefix : jsstring) :
  Dashboard.startsWith s prefix = true <-> exists after, s = prefix ++ after.
Proof.
  revert s. induction prefix as [|p prefix IH]; intros s.
  - split; [intros _; now exists s|]. intros _. now destruct s.
  - destruct s as [|c s]; simpl.
    + split; [discriminate|]. intros [after H]. discriminate.
    + rewrite andb_true_iff, N.eqb_eq, IH. split.
      * intros [-> [after ->]]. now exists after.
      * intros [after H]. inversion H. split; [reflexivity|now exists after].
Qed.

Lemma includes_spec (s sub : jsstring) :
  Dashboard.includes s sub = true <-> exists before after, s = before ++ sub ++ after.
Proof.
  induction s as [|c s IH].
  - unfold Dashboard.includes. rewrite orb_false_r, startsWith_spec. split.
    + intros [after H]. now exists [], after.
    + intros (before & after & H). destruct before; [now exists after|discriminate].
  - assert (E : Dashboard.includes (c :: s) sub
                = Dashboard.startsWith (c :: s) sub || Dashboard.includes s sub)
      by reflexivity.
    rewrite E, orb_true_iff, IH, startsWith_spec. split.
    + intros [[after H]|(before & after & H)].
      * now exists [], after.
      * exists (c :: before), after. simpl. now rewrite H.
    + intros (before & after & H). destruct before as [|b before].
      * left. now exists after.
      * right. inversion H. now exists before, after.
Qed.

Section DashboardFacts.

Variable number : Type.
Variable toLowerCase : jsstring -> jsstring.

(** X10. A book is listed exactly when it is one of the books, the search
    term is blank once trimmed and lower-cased or occurs in the lower-cased
    title, author or description, the language filter is [all] or the
    book's language, and the book carries every selected tag. *)
Theorem filteredBooks_sound
        (books : list (Catalog.BookSummary number))
        (searchTerm languageFilter : jsstring) (selectedTags : list jsstring)
        (book : Catalog.BookSummary number) :
  let query := toLowerCase (trim searchTerm) in
  let occursIn field := exists before after, toLowerCase field = before ++ query ++ after in
  In book (Dashboard.filteredBooks toLowerCase books searchTerm languageFilter
             selectedTags)
  <-> In book books
      /\ (query = []
          \/ occursIn (Catalog.title book)
          \/ occursIn (Catalog.author book)
          \/ occursIn (Catalog.description book))
      /\ (languageFilter = lit "all" \/ Catalog.language book = languageFilter)
      /\ (forall tag, In tag selectedTags -> In tag (Catalog.tags book)).
Proof.
  cbv zeta. unfold Dashboard.filteredBooks. cbv zeta.
  rewrite filter_In, !andb_true_iff, !orb_true_iff, negb_true_iff.
  rewrite !includes_spec, !str_eqb_eq, forallb_forall.
  assert (Q : truthy (toLowerCase (trim searchTerm)) = false
              <-> toLowerCase (trim searchTerm) = [])
    by (destruct (toLowerCase (trim searchTerm)); simpl; split; congruence).
  assert (T : (negb (0 <? List.length selectedTags)%nat = true
               \/ (forall x, In x selectedTags ->
                              Dashboard.arrayIncludes (Catalog.tags book) x = true))
              <-> (forall tag, In tag selectedTags -> In tag (Catalog.tags book))).
  { split.
    - intros [H|H] tag Htag.
      + destruct selectedTags; [contradiction|discriminate].
      + now apply arrayIncludes_In, H.
    - intros H. right. intros x Hx. now apply arrayIncludes_In, H. }
  rewrite Q, T. tauto.
Qed.

(** X11. Selecting one more tag keeps exactly the books listed before that
    carry it, in the same order; deselecting a tag drops no listed book. *)
Theorem tag_selection_narrows
        (books : list (Catalog.BookSummary number))
        (searchTerm languageFilter : jsstring) (selectedTags : list jsstring)
        (tag : jsstring) :
  (~ In tag selectedTags ->
   Dashboard.filteredBooks toLowerCase books searchTerm languageFilter
     (Dashboard.handleTagToggle tag selectedTags)
   = filter (fun book => Dashboard.arrayIncludes (Catalog.tags book) tag)
       (Dashboard.filteredBooks toLowerCase books searchTerm languageFilter
          selectedTags))
  /\ (In tag selectedTags ->
      forall book,
        In book (Dashboard.filteredBooks toLowerCase books searchTerm
                   languageFilter selectedTags) ->
        In book (Dashboard.filteredBooks toLowerCase books searchTerm
                   languageFilter (Dashboard.handleTagToggle tag selectedTags))).
Proof.
  split.
  - intros H. unfold Dashboard.handleTagToggle.
    rewrite (proj2 (arrayIncludes_not_In selectedTags tag) H).
    unfold Dashboard.filteredBooks. cbv zeta.
    rewrite filter_filter_and. apply filter_ext. intros b.
    rewrite forallb_app, length_app. simpl.
    destruct selectedTags as [|s rest]; simpl; btauto.
  - intros H book Hb. unfold Dashboard.handleTagToggle.
    rewrite (proj2 (arrayIncludes_In selectedTags tag) H).
    unfold Dashboard.filteredBooks in *. cbv zeta in *.
    apply filter_In in Hb. destruct Hb as [Hin Hb]. apply filter_In.
    split; [exact Hin|].
    apply andb_true_iff in Hb. destruct Hb as [Hb Ht]. rewrite Hb. simpl.
    apply orb_true_iff. right. apply forallb_forall. intros t Ht'.
    apply filter_In in Ht'. destruct Ht' as [Ht' _].
    apply orb_true_iff in Ht. destruct Ht as [Ht|Ht].
    + destruct selectedTags; [contradiction|discriminate].
    + rewrite forallb_forall in Ht. now apply Ht.
Qed.

(** X12. With a search term of white space only (or none), the language
    filter [all] and no tag selected, every book is listed, in order.  The
    only fact used of [toLowerCase] is that it maps the empty string to
    itself. *)
Theorem no_filter_lists_all
        (books : list (Catalog.BookSummary number)) (searchTerm : jsstring) :
  toLowerCase [] = [] ->
  Forall (fun c => isWhiteSpace c = true) searchTerm ->
  Dashboard.filteredBooks toLowerCase books searchTerm (lit "all") [] = books.
Proof.
  intros Hlow Hblank. unfold Dashboard.filteredBooks. cbv zeta.
  rewrite (proj2 (trim_blank searchTerm) Hblank), Hlow.
  apply filter_all. intros b _. reflexivity.
Qed.

End DashboardFacts.

Lemma find_skip (A : Type) (f : A -> bool) (l r : list A) :
  Forall (fun x => f x = false) l -> find f (l ++ r) = find f r.
Proof.
  induction 1 as [|x l Hx _ IH]; simpl; [reflexivity|]. now rewrite Hx.
Qed.

Section DashboardState.

Variable number : Type.
Variable numberToString : number -> jsstring.
Variable Detail : Type.

(** X13. After the effect has run, the active book, if there is one, is
    among the listed books (by id).  Running the effect again changes
    nothing, so the effect does not retrigger itself for ever.  When no book
    is active and some book is listed, the effect selects none. *)
Theorem syncActiveBook_settles
        (filtered : list (Catalog.BookSummary number))
        (s : Dashboard.Selection number Detail) :
  (forall active,
      Dashboard.activeBook (Dashboard.syncActiveBook filtered s) = Some active ->
      exists book, In book filtered /\ Catalog.id book = Catalog.id active)
  /\ Dashboard.syncActiveBook filtered (Dashboard.syncActiveBook filtered s)
     = Dashboard.syncActiveBook filtered s
  /\ (filtered = [] ->
      Dashboard.syncActiveBook filtered s
      = {| Dashboard.activeBook := None; Dashboard.activeBookDetail := None |})
  /\ (filtered <> [] -> Dashboard.activeBook s = None ->
      Dashboard.syncActiveBook filtered s = s).
Proof.
  unfold Dashboard.syncActiveBook.
  destruct filtered as [|first rest].
  - split; [discriminate|]. split; [reflexivity|]. split; [reflexivity|congruence].
  - destruct (Dashboard.activeBook s) as [active|] eqn:Ea.
    + destruct (existsb _ (first :: rest)) eqn:Ex; cbn [negb].
      * rewrite Ea, Ex. cbn [negb]. split.
        -- intros a Ha. try rewrite Ea in Ha. inversion Ha; subst a.
           apply existsb_exists in Ex. destruct Ex as (book & Hin & E).
           apply str_eqb_eq in E. eauto.
        -- split; [reflexivity|]. split; [discriminate|discriminate].
      * cbn [Dashboard.activeBook].
        assert (Ef : existsb (fun book => str_eqb (Catalog.id book) (Catalog.id first))
                       (first :: rest) = true)
          by (simpl; now rewrite str_eqb_refl).
        rewrite Ef. cbn [negb]. split.
        -- intros a Ha. inversion Ha; subst a. exists first. split; [now left|reflexivity].
        -- split; [reflexivity|]. split; [discriminate|discriminate].
    + rewrite Ea. split; [congruence|]. split; [reflexivity|].
      split; [discriminate|reflexivity].
Qed.

(** X14. The voice text becomes the text of the last assistant message,
    however many questions were asked after it; while there is no assistant
    message it stays what it was. *)
Theorem syncVoiceText_last_reply
        (messages : list (Dashboard.ChatMessage number)) (voiceText : jsstring) :
  (forall earlier reply later,
      messages = earlier ++ reply :: later ->
      isAssistant reply = true ->
      Forall (fun m => isAssistant m = false) later ->
      Dashboard.syncVoiceText messages voiceText = Dashboard.text reply)
  /\ (Forall (fun m => isAssistant m = false) messages ->
      Dashboard.syncVoiceText messages voiceText = voiceText).
Proof.
  unfold Dashboard.syncVoiceText.
  change (fun message : Dashboard.ChatMessage number =>
            match Dashboard.role message with
            | Dashboard.user => false
            | Dashboard.assistant => true
            end) with (@isAssistant number).
  split.
  - intros earlier reply later -> Hr Hl.
    rewrite rev_app_distr. simpl. rewrite <- app_assoc. simpl.
    rewrite find_skip by now apply Forall_rev. simpl. now rewrite Hr.
  - intros H. rewrite <- (app_nil_r (rev messages)).
    rewrite find_skip by now apply Forall_rev. reflexivity.
Qed.

(** X15. [handleSubmit] sends nothing and leaves the cells untouched when
    the input is blank or a request is in flight, and only then.  When it
    sends, the input is cleared and the loading flag set, so that submitting
    again before the request has settled sends nothing. *)
Theorem handleSubmit_once
        (activeBook : option (Catalog.BookSummary number))
        (chatScope targetLanguage newId : jsstring) (now : number)
        (cells : Dashboard.ChatCells number) :
  let sent := Dashboard.handleSubmit activeBook chatScope targetLanguage newId now cells in
  (Forall (fun c => isWhiteSpace c = true) (Dashboard.chatInput cells)
   \/ Dashboard.chatLoading cells = true ->
   sent = (cells, None))
  /\ (snd sent = None ->
      Forall (fun c => isWhiteSpace c = true) (Dashboard.chatInput cells)
      \/ Dashboard.chatLoading cells = true)
  /\ (forall body,
         snd sent = Some body ->
         Dashboard.chatInput (fst sent) = []
         /\ Dashboard.chatLoading (fst sent) = true
         /\ forall activeBook' chatScope' targetLanguage' newId' now',
             Dashboard.handleSubmit activeBook' chatScope' targetLanguage' newId' now'
               (fst sent)
             = (fst sent, None)).
Proof.
  cbv zeta. unfold Dashboard.handleSubmit.
  destruct (truthy (trim (Dashboard.chatInput cells))) eqn:Et;
    destruct (Dashboard.chatLoading cells) eqn:El; simpl.
  - split; [reflexivity|]. split; [auto|discriminate].
  - split.
    + intros [H|H]; [|discriminate]. apply trim_blank in H. rewrite H in Et.
      discriminate.
    + split; [discriminate|]. intros body _. split; [reflexivity|].
      split; reflexivity.
  - split; [reflexivity|]. split; [auto|discriminate].
  - split; [reflexivity|]. split; [|discriminate].
    intros _. left. apply trim_blank. now destruct (trim (Dashboard.chatInput cells)).
Qed.

(** X16. What the dashboard sends, the route reads back: the message is the
    trimmed input, which is not empty, so the route never answers a
    dashboard request with the 400 rejection; the scope is book scope exactly
    when the scope cell is [book]; the book id is the active book's, or
    absent when no book is active; the target language is the selected
    one. *)
Theorem dashboard_request_read_back
        (activeBook : option (Catalog.BookSummary number))
        (chatScope targetLanguage newId : jsstring) (now : number)
        (cells : Dashboard.ChatCells number) (body : json number) :
  snd (Dashboard.handleSubmit activeBook chatScope targetLanguage newId now cells)
  = Some body ->
  message_of numberToString body = Value (trim (Dashboard.chatInput cells))
  /\ trim (Dashboard.chatInput cells) <> []
  /\ scope_of body
     = (if str_eqb chatScope (lit "book") then Qa.book_scope else Qa.library_scope)
  /\ bookId_of body = option_map (@Catalog.id number) activeBook
  /\ targetLanguage_of body = targetLanguage
  /\ (forall env r,
         snd (POST numberToString body env) = Value r ->
         exists p, r = {| status := 200; data := Chat p |}).
Proof.
  unfold Dashboard.handleSubmit.
  destruct (truthy (trim (Dashboard.chatInput cells))) eqn:Et;
    destruct (Dashboard.chatLoading cells); simpl; try discriminate.
  intros H. inversion H; subst body. clear H.
  assert (Hm : message_of numberToString
                 (@Dashboard.requestBody number (trim (Dashboard.chatInput cells))
                    (option_map (@Catalog.id number) activeBook)
                    chatScope targetLanguage)
               = Value (trim (Dashboard.chatInput cells))).
  { unfold message_of, Dashboard.requestBody. simpl.
    now rewrite trim_idempotent. }
  split; [exact Hm|]. split; [now apply truthy_nonempty|].
  split; [destruct activeBook; reflexivity|].
  split; [destruct activeBook; reflexivity|].
  split; [destruct activeBook; reflexivity|].
  intros env r K.
  destruct (POST_response numberToString _ env K)
    as [[E _]|(m & t & a & localized & E)].
  - rewrite Hm in E. inversion E as [E']. rewrite E' in Et. discriminate.
  - cbv zeta in E. destruct E as (Hm' & Hne & Hto & Hfa & Hfrom).
    rewrite (POST_returns numberToString _ env Hm' Hne Hto Hfa Hfrom) in K.
    simpl in K. inversion K. eexists. reflexivity.
Qed.

End DashboardState.

Section DashboardAndRoute.

Variable number : Type.
Variable numberToString : number -> jsstring.


(** X18. When the route answers a request of the dashboard, it answers with
    status 200, which [fetch] reports as [ok].  The reply then shown is the
    text [translateFromEnglish] returned for the route's [baseAnswer] in the
    language selected on the dashboard; its caption carries that language and
    the title and section of the route's source, and none when nothing was
    found; and the voice panel is given that reply. *)
Theorem route_answer_shown
        (activeBook : option (Catalog.BookSummary number))
        (chatScope targetLanguage newId replyId voiceText : jsstring)
        (now later : number)
        (cells : Dashboard.ChatCells number) (body : json number)
        (env : Collaborators) (r : Response) :
  let sent := Dashboard.handleSubmit activeBook chatScope targetLanguage newId now cells in
  snd sent = Some body ->
  snd (POST numberToString body env) = Value r ->
  exists p,
    r = {| status := 200; data := Chat p |}
    /\ ChatRoute.translateFromEnglish env (baseAnswer p) targetLanguage
       = Value (answer p)
    /\ let settled :=
         Dashboard.handleSubmit_settled
           (Dashboard.fetch_response true (inr p)) replyId later (fst sent) in
       (exists question reply,
           Dashboard.chatMessages settled
           = Dashboard.chatMessages cells ++ [question; reply]
           /\ Dashboard.text reply = answer p
           /\ Dashboard.meta reply
              = Some {| Dashboard.bookTitle := option_map source_title (source p);
                        Dashboard.section := option_map source_section (source p);
                        Dashboard.language := Some targetLanguage |}
           /\ (found p = false ->
               Dashboard.meta reply
               = Some {| Dashboard.bookTitle := None;
                         Dashboard.section := None;
                         Dashboard.language := Some targetLanguage |}))
       /\ Dashboard.syncVoiceText (Dashboard.chatMessages settled) voiceText
          = answer p.
Proof.
  cbv zeta. intros Hsent K.
  assert (Hl : targetLanguage_of body = targetLanguage).
  { revert Hsent. unfold Dashboard.handleSubmit.
    destruct (negb (truthy (trim (Dashboard.chatInput cells)))
              || Dashboard.chatLoading cells); simpl; [discriminate|].
    intros H. inversion H. destruct activeBook; reflexivity. }
  assert (Hne : message_of numberToString body <> Value []).
  { revert Hsent. unfold Dashboard.handleSubmit.
    destruct (truthy (trim (Dashboard.chatInput cells))) eqn:Et;
      destruct (Dashboard.chatLoading cells); simpl; try discriminate.
    intros H. inversion H. unfold message_of, Dashboard.requestBody. simpl.
    rewrite trim_idempotent. intros E. inversion E as [E']. rewrite E' in Et.
    discriminate. }
  destruct (POST_response numberToString body env K)
    as [[E _]|(m & t & a & localized & E)]; [contradiction|].
  cbv zeta in E. destruct E as (Hm & Hnem & Hto & Hfa & Hfrom).
  rewrite (POST_returns numberToString body env Hm Hnem Hto Hfa Hfrom) in K.
  simpl in K. inversion K as [Hr]. clear K.
  eexists. split; [reflexivity|]. simpl. rewrite Hl in *.
  split; [exact Hfrom|].
  revert Hsent. unfold Dashboard.handleSubmit.
  destruct (negb (truthy (trim (Dashboard.chatInput cells)))
            || Dashboard.chatLoading cells); simpl; [discriminate|].
  intros _. unfold Dashboard.handleSubmit_settled. simpl. split.
  - eexists. eexists. rewrite <- app_assoc. simpl.
    split; [reflexivity|]. simpl. split; [reflexivity|]. split; [reflexivity|].
    destruct a; [discriminate|reflexivity].
  - unfold Dashboard.syncVoiceText. rewrite rev_app_distr. reflexivity.
Qed.

End DashboardAndRoute.

(** ** The book detail route *)

Section DetailFacts.

Variable number : Type.
Variable getBookById : jsstring -> option (list (jsstring * json number)).

Lemma own_rest (book : list (jsstring * json number)) (key : jsstring) :
  own key (BookDetailRoute.rest book)
  = if str_eqb key (lit "keywords") then None else own key book.
Proof.
  unfold BookDetailRoute.rest.
  induction book as [|[k v] book IH]; simpl.
  - now destruct (str_eqb key (lit "keywords")).
  - destruct (str_eqb k (lit "keywords")) eqn:Ek; simpl.
    + rewrite IH. destruct (str_eqb key (lit "keywords")) eqn:E; [reflexivity|].
      destruct (str_eqb k key) eqn:Ekk; [|reflexivity].
      apply str_eqb_eq in Ek, Ekk. apply str_eqb_neq in E. congruence.
    + destruct (str_eqb k key) eqn:Ekk.
      * apply str_eqb_eq in Ekk. subst key. now rewrite Ek.
      * exact IH.
Qed.

(** X19. The detail route answers 404 with the error [Book not found] when
    [getBookById] finds nothing, and otherwise 200 with the book under the
    key [book]: no [keywords] property, every other property with the value
    it has in the book, and the properties in their order. *)
Theorem detail_omits_keywords (id : jsstring) :
  (getBookById id = None ->
   BookDetailRoute.GET getBookById id
   = {| BookDetailRoute.status := 404;
        BookDetailRoute.body := JObj [(lit "error", JStr (lit "Book not found"))] |})
  /\ (forall book,
         getBookById id = Some book ->
         exists shown,
           BookDetailRoute.GET getBookById id
           = {| BookDetailRoute.status := 200;
                BookDetailRoute.body := JObj [(lit "book", JObj shown)] |}
           /\ own (lit "keywords") shown = None
           /\ (forall key, key <> lit "keywords" -> own key shown = own key book)
           /\ shown = filter (fun property => negb (str_eqb (fst property) (lit "keywords")))
                        book
           /\ (forall property,
                  In property shown
                  <-> In property book /\ fst property <> lit "keywords")).
Proof.
  unfold BookDetailRoute.GET. split.
  - intros ->. reflexivity.
  - intros book ->. exists (BookDetailRoute.rest book).
    split; [reflexivity|]. split; [now rewrite own_rest|]. split.
    + intros key H. rewrite own_rest.
      now rewrite (proj2 (str_eqb_neq key (lit "keywords")) H).
    + split; [reflexivity|]. intros property. unfold BookDetailRoute.rest.
      now rewrite filter_In, negb_true_iff, str_eqb_neq.
Qed.

End DetailFacts.

(** ** The new facts on the sample shelf and conversation *)

Lemma calls_in_order_witness :
  exists m t,
    In (call_translateToEnglish m) (fst (POST numberToString carbon collaborators))
    /\ ChatRoute.translateToEnglish collaborators m = Value t
    /\ carbonQuestion = if truthy (Translation.text t) then Translation.text t else m.
Proof.
  apply (proj1 (proj2 (calls_in_order numberToString carbon collaborators))
           carbonQuestion (options_of carbon)).
  vm_compute. right. left. reflexivity.
Defined.


Lemma only_200_or_400_witness :
  (message_of numberToString carbon = Value []
   /\ {| status := 200; data := Chat carbonPayload |}
      = {| status := 400; data := ErrorPayload (lit "Message must not be empty.") |}
   /\ fst (POST numberToString carbon collaborators) = [])
  \/ (exists m p,
         message_of numberToString carbon = Value m
         /\ m <> []
         /\ {| status := 200; data := Chat carbonPayload |}
            = {| status := 200; data := Chat p |}
         /\ List.length (fst (POST numberToString carbon collaborators)) = 3%nat).
Proof.
  apply (only_200_or_400 numberToString carbon collaborators).
  vm_compute. reflexivity.
Defined.


Lemma missing_message_rejected_witness :
  POST numberToString (JArr [] : Sample.body) collaborators
  = ([], Value {| status := 400;
                  data := ErrorPayload (lit "Message must not be empty.") |}).
Proof.
  apply (proj1 (missing_message_rejected numberToString (JArr []) collaborators)).
  discriminate.
Defined.

Lemma response_repeats_translator_witness :
  In (call_translateFromEnglish (baseAnswer carbonPayload) (targetLanguage carbonPayload))
     (fst (POST numberToString carbon collaborators))
  /\ ChatRoute.translateFromEnglish collaborators (baseAnswer carbonPayload)
       (targetLanguage carbonPayload)
     = Value (answer carbonPayload)
  /\ baseAnswer carbonPayload <> []
  /\ exists m t,
      message_of numberToString carbon = Value m
      /\ ChatRoute.translateToEnglish collaborators m = Value t
      /\ detectedLanguage carbonPayload = Translation.detected t.
Proof.
  apply (response_repeats_translator numberToString carbon collaborators
           (r := {| status := 200; data := Chat carbonPayload |})).
  - vm_compute. reflexivity.
  - reflexivity.
Defined.

Lemma handleTagToggle_flips_witness :
  NoDup (Dashboard.handleTagToggle (lit "policy") [lit "climate"; lit "policy"]).
Proof.
  apply (proj2 (handleTagToggle_flips (lit "policy") [lit "climate"; lit "policy"])).
  repeat constructor; vm_compute; intuition discriminate.
Defined.

Lemma handleTagToggle_twice_witness :
  Dashboard.handleTagToggle (lit "culture")
    (Dashboard.handleTagToggle (lit "culture") [lit "climate"; lit "policy"])
  = [lit "climate"; lit "policy"].
Proof.
  apply (proj1 (handleTagToggle_twice (lit "culture") [lit "climate"; lit "policy"])).
  vm_compute. intuition discriminate.
Defined.

Lemma filteredBooks_sound_witness :
  In SampleUi.atlas
     (Dashboard.filteredBooks SampleUi.asciiLower SampleUi.shelf (lit " Climate ")
        (lit "en") [lit "policy"]).
Proof.
  apply (filteredBooks_sound SampleUi.asciiLower SampleUi.shelf (lit " Climate ")
           (lit "en") [lit "policy"] SampleUi.atlas).
  split; [left; reflexivity|]. split.
  - right. left. exists [], (lit " atlas"). reflexivity.
  - split; [right; reflexivity|].
    intros tag [<-|[]]. right. left. reflexivity.
Defined.

Lemma tag_selection_narrows_witness :
  Dashboard.filteredBooks SampleUi.asciiLower SampleUi.shelf [] (lit "all")
    (Dashboard.handleTagToggle (lit "climate") [lit "policy"])
  = filter (fun book => Dashboard.arrayIncludes (Catalog.tags book) (lit "climate"))
      (Dashboard.filteredBooks SampleUi.asciiLower SampleUi.shelf [] (lit "all")
         [lit "policy"]).
Proof.
  apply (proj1 (tag_selection_narrows SampleUi.asciiLower SampleUi.shelf []
                  (lit "all") [lit "policy"] (lit "climate"))).
  vm_compute. intuition discriminate.
Defined.

Lemma no_filter_lists_all_witness :
  Dashboard.filteredBooks SampleUi.asciiLower SampleUi.shelf (lit "  ") (lit "all") []
  = SampleUi.shelf.
Proof.
  apply (no_filter_lists_all SampleUi.asciiLower SampleUi.shelf).
  - reflexivity.
  - repeat constructor.
Defined.

Lemma syncActiveBook_settles_witness :
  exists book,
    In book [SampleUi.atlas; SampleUi.design]
    /\ Catalog.id book = Catalog.id SampleUi.atlas.
Proof.
  apply (proj1 (syncActiveBook_settles [SampleUi.atlas; SampleUi.design]
                  {| Dashboard.activeBook := Some SampleUi.jardin;
                     Dashboard.activeBookDetail := @None unit |})).
  reflexivity.
Defined.

Lemma syncVoiceText_last_reply_witness :
  Dashboard.syncVoiceText [SampleUi.asked; SampleUi.answered; SampleUi.followUp] []
  = Dashboard.text SampleUi.answered.
Proof.
  apply (proj1 (syncVoiceText_last_reply
                  [SampleUi.asked; SampleUi.answered; SampleUi.followUp] [])
           [SampleUi.asked] SampleUi.answered [SampleUi.followUp]).
  - reflexivity.
  - reflexivity.
  - repeat constructor.
Defined.

Lemma handleSubmit_once_witness :
  Dashboard.handleSubmit None (lit "library") (lit "fr") (lit "m9") 5%Z
    (fst (Dashboard.handleSubmit (Some SampleUi.atlas) (lit "book") (lit "en")
            (lit "m1") 1000%Z SampleUi.typing))
  = (fst (Dashboard.handleSubmit (Some SampleUi.atlas) (lit "book") (lit "en")
            (lit "m1") 1000%Z SampleUi.typing),
     None).
Proof.
  apply (proj2 (proj2 (handleSubmit_once (Some SampleUi.atlas) (lit "book") (lit "en")
                         (lit "m1") 1000%Z SampleUi.typing))
           SampleUi.question eq_refl).
Defined.

Lemma dashboard_request_read_back_witness :
  message_of numberToString SampleUi.question = Value carbonQuestion
  /\ trim (Dashboard.chatInput SampleUi.typing) <> []
  /\ scope_of SampleUi.question = Qa.book_scope
  /\ bookId_of SampleUi.question = Some (lit "climate-atlas")
  /\ targetLanguage_of SampleUi.question = lit "en"
  /\ (forall env r,
         snd (POST numberToString SampleUi.question env) = Value r ->
         exists p, r = {| status := 200; data := Chat p |}).
Proof.
  apply (dashboard_request_read_back numberToString (Some SampleUi.atlas) (lit "book")
           (lit "en") (lit "m1") 1000%Z SampleUi.typing (body := SampleUi.question)).
  reflexivity.
Defined.


Lemma route_answer_shown_witness :
  exists p,
    {| status := 200; data := Chat carbonPayload |} = {| status := 200; data := Chat p |}
    /\ ChatRoute.translateFromEnglish collaborators (baseAnswer p) (lit "en")
       = Value (answer p)
    /\ Dashboard.syncVoiceText
         (Dashboard.chatMessages
            (Dashboard.handleSubmit_settled
               (Dashboard.fetch_response true (inr p)) (lit "m2") 2000%Z
               (fst (Dashboard.handleSubmit (Some SampleUi.atlas) (lit "book")
                       (lit "en") (lit "m1") 1000%Z SampleUi.typing))))
         []
       = answer p.
Proof.
  destruct (route_answer_shown numberToString (Some SampleUi.atlas) (lit "book")
              (lit "en") (lit "m1") (lit "m2") [] 1000%Z 2000%Z SampleUi.typing
              (body := SampleUi.question) collaborators
              (r := {| status := 200; data := Chat carbonPayload |}) eq_refl)
    as (p & Hr & Hfrom & _ & Hvoice).
  - vm_compute. reflexivity.
  - exists p. split; [exact Hr|]. split; [exact Hfrom|exact Hvoice].
Defined.

Lemma detail_omits_keywords_witness :
  exists shown,
    BookDetailRoute.GET SampleUi.getBookById (lit "climate-atlas")
    = {| BookDetailRoute.status := 200;
         BookDetailRoute.body := JObj [(lit "book", JObj shown)] |}
    /\ own (lit "keywords") shown = None
    /\ own (lit "title") shown = Some (JStr (lit "Climate Atlas")).
Proof.
  destruct (proj2 (detail_omits_keywords SampleUi.getBookById (lit "climate-atlas"))
              SampleUi.atlasRecord eq_refl)
    as (shown & Hget & Hk & Hother & _).
  exists shown. split; [exact Hget|]. split; [exact Hk|].
  rewrite Hother by discriminate. reflexivity.
Defined.

(** ** The PDF route *)

Section PdfFacts.

Variable number : Type.
Variable numberToString : number -> jsstring.

Lemma typeset_paragraphs (ps : list jsstring) (f : jsstring) (z : Q)
      (rest : list BookPdfRoute.DocCommand) :
  (forall f1 z1 f2 z2,
      BookPdfRoute.typeset f1 z1 rest = BookPdfRoute.typeset f2 z2 rest) ->
  BookPdfRoute.typeset f z (flat_map paragraphCommands ps ++ rest)
  = map paragraphBlock ps ++ BookPdfRoute.typeset f z rest.
Proof.
  intros Hrest. revert f z. induction ps as [|p ps IH]; intros f z; simpl.
  - reflexivity.
  - unfold paragraphBlock at 1. f_equal. rewrite IH. f_equal. apply Hrest.
Qed.

Lemma typeset_sections (ss : list BookPdfRoute.BookSection) (f : jsstring) (z : Q) :
  BookPdfRoute.typeset f z
    (flat_map sectionCommands ss ++ [BookPdfRoute.end_document])
  = flat_map sectionBlocks ss.
Proof.
  revert f z. induction ss as [|s ss IH]; intros f z.
  - reflexivity.
  - cbn [flat_map]. unfold sectionCommands at 1.
    rewrite <- !app_assoc. cbn [app BookPdfRoute.typeset].
    rewrite typeset_paragraphs.
    + cbn [app BookPdfRoute.typeset]. rewrite IH. reflexivity.
    + intros f1 z1 f2 z2. cbn [app BookPdfRoute.typeset]. now rewrite !IH.
Qed.

(** X20. Whatever font and size the document starts in, the route sets both
    before each text: the title in Helvetica-Bold 20 and the byline (author,
    year, tags joined by commas) in Helvetica 12, both centred; the
    description in Helvetica 12, left, line gap 4; then, section by section
    in the book's order, the heading in Helvetica-Bold 16 followed by each
    paragraph in Helvetica 12 with line gap 4.  Nothing else is written. *)
Theorem document_blocks (book : BookPdfRoute.Book number) (f : jsstring) (z : Q) :
  BookPdfRoute.typeset f z (BookPdfRoute.document numberToString book)
  = [ {| BookPdfRoute.block_font := lit "Helvetica-Bold";
         BookPdfRoute.block_size := 20;
         BookPdfRoute.block_text := BookPdfRoute.title book;
         BookPdfRoute.block_options :=
           {| BookPdfRoute.align := Some BookPdfRoute.align_center;
              BookPdfRoute.lineGap := None |} |};
      {| BookPdfRoute.block_font := lit "Helvetica";
         BookPdfRoute.block_size := 12;
         BookPdfRoute.block_text :=
           BookPdfRoute.author book ++ [32; BookPdfRoute.bullet; 32]%N
           ++ numberToString (BookPdfRoute.year book)
           ++ [32; BookPdfRoute.bullet; 32]%N
           ++ join (lit ", ") (BookPdfRoute.tags book);
         BookPdfRoute.block_options :=
           {| BookPdfRoute.align := Some BookPdfRoute.align_center;
              BookPdfRoute.lineGap := None |} |};
      {| BookPdfRoute.block_font := lit "Helvetica";
         BookPdfRoute.block_size := 12;
         BookPdfRoute.block_text := BookPdfRoute.description book;
         BookPdfRoute.block_options :=
           {| BookPdfRoute.align := Some BookPdfRoute.align_left;
              BookPdfRoute.lineGap := Some 4 |} |} ]
    ++ flat_map sectionBlocks (BookPdfRoute.sections book).
Proof.
  unfold BookPdfRoute.document. cbn [app BookPdfRoute.typeset].
  do 3 f_equal. apply (typeset_sections (BookPdfRoute.sections book)).
Qed.

Variable getBookById : jsstring -> option (BookPdfRoute.Book number).
Variable pdfkit : BookPdfRoute.Setup -> list BookPdfRoute.DocCommand -> list N.


End PdfFacts.

Lemma document_blocks_witness :
  map BookPdfRoute.block_text
      (BookPdfRoute.typeset (lit "Courier") 9
         (BookPdfRoute.document numberToString SampleUi.atlasPdf))
  = [ lit "Climate Atlas";
      lit "A. Author " ++ [BookPdfRoute.bullet] ++ lit " 2020 "
      ++ [BookPdfRoute.bullet] ++ lit " climate, policy";
      lit "An atlas of climate policy.";
      lit "Carbon Markets";
      lit "Carbon markets price emissions through tradable permits.";
      lit "Permits are auctioned.";
      lit "Empty Section" ].
Proof.
  rewrite (document_blocks numberToString SampleUi.atlasPdf (lit "Courier") 9).
  reflexivity.
Defined.
